(** * AutoscoperMockServer: the wire-protocol dispatcher and its mock Command Surface

    A shallow embedding of [Socket.cpp] (the dispatcher: [handleMessage],
    [createNewConnection], [deleteConnection], [reading]) and of
    [AutoscoperMockMainWindow.cpp] (the mock application-control surface).

    Conventions of the embedding.
    - A [char] buffer is a [list byte]; a read at an offset outside the
      allocation is undefined behaviour in the source and is the explicit
      fault [OutOfBounds] here.
    - Multi-byte fields are read with [reinterpret_cast] in the byte order of
      the platform; the embedding fixes little-endian (x86, the deployment
      target).  Alignment is not modelled.
    - A [double] is its IEEE-754 binary64 bit pattern, an integer below 2^64:
      the dispatcher only copies doubles, it never computes with them.
    - Logging ([std::cerr], [qInfo]) is not modelled. *)

From Stdlib Require Import ZArith Lia Strings.Byte.
From stdpp Require Import base list gmap.

Local Open Scope Z_scope.

(** ** Faults and the error monad *)

Inductive fault : Type :=
| OutOfBounds   (* a read outside the buffer or vector it points into *)
| LengthError   (* std::string built with a negative (huge unsigned) count *)
| NullSender    (* a member call through a null sender() *)
| DeadObject.   (* a signal of a QTcpSocket that does not exist *)

Inductive result (A : Type) : Type :=
| Ok (a : A)
| Fault (f : fault).
Arguments Ok {A} a.
Arguments Fault {A} f.

Notation "x <- e ;; k" :=
  (match e with Ok x => k | Fault f => Fault f end)
  (at level 60, e at next level, right associativity, only parsing).

Definition is_Ok {A} (r : result A) : bool :=
  match r with Ok _ => true | Fault _ => false end.

(** ** Bytes and little-endian fields *)

Definition Z_of_byte (b : byte) : Z := Z.of_N (Byte.to_N b).

Definition byte_of_Z (z : Z) : byte :=
  match Byte.of_N (Z.to_N (z mod 256)) with
  | Some b => b
  | None => x00
  end.

Fixpoint le_decode (bs : list byte) : Z :=
  match bs with
  | [] => 0
  | b :: rest => Z_of_byte b + 256 * le_decode rest
  end.

Fixpoint le_encode (n : nat) (x : Z) : list byte :=
  match n with
  | O => []
  | S k => byte_of_Z x :: le_encode k (x / 256)
  end.

(** [qint32] is signed, [unsigned int] is the residue modulo 2^32. *)
Definition to_signed32 (u : Z) : Z :=
  if u <? 2 ^ 31 then u else u - 2 ^ 32.

Definition to_unsigned32 (z : Z) : Z := z mod 2 ^ 32.

Definition double : Type := Z.

Definition is_double (d : double) : Prop := 0 <= d < 2 ^ 64.

Definition encode_qint32 (z : Z) : list byte := le_encode 4 z.
Definition encode_double (d : double) : list byte := le_encode 8 d.
Definition encode_doubles (ds : list double) : list byte :=
  concat (map encode_double ds).

(** ** Reads from a [char*] buffer *)

(** The bytes [data[off] .. data[off+n-1]]. *)
Definition read_bytes (data : list byte) (off n : Z) : result (list byte) :=
  if (0 <=? off) && (0 <=? n) && (off + n <=? Z.of_nat (length data))
  then Ok (take (Z.to_nat n) (drop (Z.to_nat off) data))
  else Fault OutOfBounds.

(** [unsigned char c = data[off]] *)
Definition read_uchar (data : list byte) (off : Z) : result Z :=
  bs <- read_bytes data off 1 ;; Ok (le_decode bs).

(** [*reinterpret_cast<qint32*>(&data[off])] *)
Definition read_qint32 (data : list byte) (off : Z) : result Z :=
  bs <- read_bytes data off 4 ;; Ok (to_signed32 (le_decode bs)).

(** [*reinterpret_cast<double*>(&data[off])] *)
Definition read_double (data : list byte) (off : Z) : result double :=
  bs <- read_bytes data off 8 ;; Ok (le_decode bs).

(** [pose.assign(pose_data, pose_data + 6)] with [pose_data] at [&data[off]] *)
Definition read_pose (data : list byte) (off : Z) : result (list double) :=
  d0 <- read_double data off ;;
  d1 <- read_double data (off + 8) ;;
  d2 <- read_double data (off + 16) ;;
  d3 <- read_double data (off + 24) ;;
  d4 <- read_double data (off + 32) ;;
  d5 <- read_double data (off + 40) ;;
  Ok [d0; d1; d2; d3; d4; d5].

(** [std::string(&data[off], length - off)]: the count is converted to
    [size_t]; a negative count is larger than [max_size()]. *)
Definition std_string (data : list byte) (off count : Z) : result (list byte) :=
  if count <? 0 then Fault LengthError else read_bytes data off count.

(** [QString(filename.c_str())]: the C string stops at the first NUL. *)
Definition QString : Type := list byte.

Fixpoint c_str (s : list byte) : QString :=
  match s with
  | [] => []
  | b :: rest => if Byte.eqb b x00 then [] else b :: c_str rest
  end.

(** [array.append(reinterpret_cast<char*>(&v[0]), sizeof(double) * n)]:
    the first [n] doubles of the vector's storage. *)
Definition vector_doubles (v : list double) (n : nat) : result (list double) :=
  if (n <=? length v)%nat then Ok (take n v) else Fault OutOfBounds.

(** ** Double literals

    The compiler turns a decimal literal into the nearest binary64 value,
    ties to even.  [binary64_of_Q n d] is the bit pattern of the double
    nearest to the positive rational [n/d], for values in the normal range. *)

Definition round_half_even (n d : Z) : Z :=
  let q := n / d in
  let r := n mod d in
  if 2 * r <? d then q
  else if d <? 2 * r then q + 1
  else if Z.even q then q else q + 1.

(** The quotient [n * 2^k / d] as a fraction, for an exponent [k] of either sign. *)
Definition scale2 (n d k : Z) : Z * Z :=
  if 0 <=? k then (n * 2 ^ k, d) else (n, d * 2 ^ (- k)).

Definition binary64_of_Q (n d : Z) : double :=
  let e0 := Z.log2 n - Z.log2 d in
  let '(n0, d0) := scale2 n d (- e0) in
  let e := if d0 <=? n0 then e0 else e0 - 1 in
  let '(n1, d1) := scale2 n d (52 - e) in
  let m := round_half_even n1 d1 in
  let '(m, e) := if m =? 2 ^ 53 then (2 ^ 52, e + 1) else (m, e) in
  (e + 1023) * 2 ^ 52 + (m - 2 ^ 52).

(** ** The Command Surface (AutoscoperMockMainWindow.h)

    The dispatcher holds an [AutoscoperMainWindow*] and calls its public
    methods.  Each method takes the window's state and returns the new one;
    [unsigned int &width, &height] of [getImageData] are passed in and out. *)

Class CommandSurface (W : Type) : Type := {
  setFrame : Z -> W -> W;
  openTrial : QString -> W -> W;
  load_tracking_results :
    QString -> bool -> bool -> bool -> bool -> bool -> bool -> Z -> W -> W;
  save_tracking_results :
    QString -> bool -> bool -> bool -> bool -> bool -> bool -> Z -> W -> W;
  loadFilterSettings : Z -> QString -> W -> W;
  getPose : Z -> Z -> W -> list double * W;
  setPose : list double -> Z -> Z -> W -> W;
  setBackground : double -> W -> W;
  getNCC : Z -> list double -> W -> list double * W;
  saveFullDRR : W -> W;
  getImageData : Z -> Z -> list double -> Z -> Z -> W -> (list byte * Z * Z) * W;
  optimizeFrame : Z -> Z -> Z -> Z -> Z -> Z -> double -> double -> Z -> Z -> W -> W
}.

(** The calls the dispatcher makes, with their arguments as the callee
    receives them (after the implicit conversions of the call). *)
Inductive call : Type :=
| CallSetFrame (frame : Z)
| CallOpenTrial (filename : QString)
| CallLoadTrackingResults (filename : QString)
    (save_as_matrix save_as_rows save_with_commas : bool)
    (convert_to_cm convert_to_rad interpolate : bool) (volume : Z)
| CallSaveTrackingResults (filename : QString)
    (save_as_matrix save_as_rows save_with_commas : bool)
    (convert_to_cm convert_to_rad interpolate : bool) (volume : Z)
| CallLoadFilterSettings (camera : Z) (filename : QString)
| CallGetPose (volume frame : Z)
| CallSetPose (pose : list double) (volume frame : Z)
| CallSetBackground (threshold : double)
| CallGetNCC (volumeID : Z) (xyzpr : list double)
| CallSaveFullDRR
| CallGetImageData (volumeID camera : Z) (xyzpr : list double) (width height : Z)
| CallOptimizeFrame (volumeID frame dframe repeats opt_method max_iter : Z)
    (min_limit max_limit : double) (cf_model stall_iter : Z).

(** ** The mock Command Surface (AutoscoperMockMainWindow.cpp) *)

Module Mock.

Record AutoscoperMockMainWindow : Type := {
  Frame : Z;
  Pose : list double
}.

(** The constructor: [int Frame { -1 }] and six [push_back]s. *)
Definition AutoscoperMockMainWindow_ctor : AutoscoperMockMainWindow :=
  {| Frame := -1;
     Pose := [] ++ [binary64_of_Q 1 10] ++ [binary64_of_Q 12 10]
                ++ [binary64_of_Q 23 10] ++ [binary64_of_Q 34 10]
                ++ [binary64_of_Q 45 10] ++ [binary64_of_Q 67 10] |}.

Definition setFrame (frame : Z) (w : AutoscoperMockMainWindow) :=
  {| Frame := frame; Pose := Pose w |}.

Definition openTrial (filename : QString) (w : AutoscoperMockMainWindow) := w.

Definition load_tracking_results (filename : QString)
    (save_as_matrix save_as_rows save_with_commas : bool)
    (convert_to_cm convert_to_rad interpolate : bool) (volume : Z)
    (w : AutoscoperMockMainWindow) := w.

Definition save_tracking_results (filename : QString)
    (save_as_matrix save_as_rows save_with_commas : bool)
    (convert_to_cm convert_to_rad interpolate : bool) (volume : Z)
    (w : AutoscoperMockMainWindow) := w.

Definition loadFilterSettings (camera : Z) (filename : QString)
    (w : AutoscoperMockMainWindow) := w.

Definition getPose (volume frame : Z) (w : AutoscoperMockMainWindow)
    : list double * AutoscoperMockMainWindow :=
  (Pose w, w).

Definition setPose (pose : list double) (volume frame : Z)
    (w : AutoscoperMockMainWindow) :=
  {| Frame := Frame w; Pose := pose |}.

Definition setBackground (threshold : double) (w : AutoscoperMockMainWindow) := w.

Definition getNCC (volumeID : Z) (xyzpr : list double)
    (w : AutoscoperMockMainWindow) : list double * AutoscoperMockMainWindow :=
  let correlations := [] in
  let correlations := correlations ++ [binary64_of_Q 5 10] in
  (correlations, w).

Definition saveFullDRR (w : AutoscoperMockMainWindow) := w.

(** One pass of the inner loop body: [(unsigned char)(255 * toggle)]. *)
Definition pixel (width height w_idx h_idx : Z) : byte :=
  let width_index_right := width / 2 <? w_idx in
  let height_index_bottom := height / 2 <? h_idx in
  let toggle :=
    (width_index_right && height_index_bottom)
    || (negb width_index_right && negb height_index_bottom) in
  byte_of_Z (255 * (if toggle then 1 else 0)).

(** [width] and [height] are only read: the references are never assigned. *)
Definition getImageData (volumeID camera : Z) (xyzpr : list double)
    (width height : Z) (w : AutoscoperMockMainWindow)
    : (list byte * Z * Z) * AutoscoperMockMainWindow :=
  let img_Data :=
    concat (map (fun w_idx => map (fun h_idx => pixel width height w_idx h_idx)
                                  (seqZ 0 height))
                (seqZ 0 width)) in
  ((img_Data, width, height), w).

Definition optimizeFrame (volumeID frame dframe repeats opt_method max_iter : Z)
    (min_limit max_limit : double) (cf_model stall_iter : Z)
    (w : AutoscoperMockMainWindow) := w.

End Mock.

#[export] Instance mock_surface : CommandSurface Mock.AutoscoperMockMainWindow := {
  setFrame := Mock.setFrame;
  openTrial := Mock.openTrial;
  load_tracking_results := Mock.load_tracking_results;
  save_tracking_results := Mock.save_tracking_results;
  loadFilterSettings := Mock.loadFilterSettings;
  getPose := Mock.getPose;
  setPose := Mock.setPose;
  setBackground := Mock.setBackground;
  getNCC := Mock.getNCC;
  saveFullDRR := Mock.saveFullDRR;
  getImageData := Mock.getImageData;
  optimizeFrame := Mock.optimizeFrame
}.

(** ** The dispatcher (Socket.cpp) *)

Section Dispatcher.

Context {W : Type} `{CommandSurface W}.

(** What one run of [handleMessage] leaves behind: the window's state, the
    calls made through [m_mainwindow] and the bytes given to
    [connection->write]. *)
Record handled : Type := {
  window : W;
  calls : list call;
  written : list byte
}.

(** [QByteArray(1, ch)] *)
Definition QByteArray1 (ch : Z) : list byte := [byte_of_Z ch].

(** [void Socket::handleMessage(QTcpSocket*, char* data, qint64 length)].
    [uninit] holds the indeterminate contents of the locals
    [unsigned int width, height] of case 10, which are declared without an
    initialiser and handed to [getImageData] by reference. *)
Definition handleMessage (mw : W) (uninit : Z * Z) (data : list byte)
    (length : Z) : result handled :=
  message_type <- read_uchar data 0 ;;
  match message_type with
  | 1 =>
      filename <- std_string data 1 (length - 1) ;;
      let mw := openTrial (c_str filename) mw in
      Ok {| window := mw;
            calls := [CallOpenTrial (c_str filename)];
            written := QByteArray1 1 |}
  | 2 =>
      filename <- std_string data 5 (length - 5) ;;
      volume <- read_qint32 data 1 ;;
      let mw := load_tracking_results (c_str filename)
                  true true true false false false volume mw in
      Ok {| window := mw;
            calls := [CallLoadTrackingResults (c_str filename)
                        true true true false false false volume];
            written := QByteArray1 2 |}
  | 3 =>
      filename <- std_string data 5 (length - 5) ;;
      volume <- read_qint32 data 1 ;;
      let mw := save_tracking_results (c_str filename)
                  true true true false false false volume mw in
      Ok {| window := mw;
            calls := [CallSaveTrackingResults (c_str filename)
                        true true true false false false volume];
            written := QByteArray1 3 |}
  | 4 =>
      filename <- std_string data 5 (length - 5) ;;
      camera <- read_qint32 data 1 ;;
      let mw := loadFilterSettings camera (c_str filename) mw in
      Ok {| window := mw;
            calls := [CallLoadFilterSettings camera (c_str filename)];
            written := QByteArray1 4 |}
  | 5 =>
      frame <- read_qint32 data 1 ;;
      let mw := setFrame frame mw in
      Ok {| window := mw;
            calls := [CallSetFrame frame];
            written := QByteArray1 5 |}
  | 6 =>
      volume <- read_qint32 data 1 ;;
      frame <- read_qint32 data 5 ;;
      let '(pose, mw) :=
        getPose (to_unsigned32 volume) (to_unsigned32 frame) mw in
      ptr <- vector_doubles pose 6 ;;
      let array := QByteArray1 6 in
      let array := array ++ encode_doubles ptr in
      Ok {| window := mw;
            calls := [CallGetPose (to_unsigned32 volume) (to_unsigned32 frame)];
            written := array |}
  | 7 =>
      pose <- read_pose data 9 ;;
      volume <- read_qint32 data 1 ;;
      frame <- read_qint32 data 5 ;;
      let mw := setPose pose (to_unsigned32 volume) (to_unsigned32 frame) mw in
      Ok {| window := mw;
            calls := [CallSetPose pose (to_unsigned32 volume)
                        (to_unsigned32 frame)];
            written := QByteArray1 7 |}
  | 8 =>
      pose <- read_pose data 5 ;;
      volume <- read_qint32 data 1 ;;
      let '(ncc, mw) := getNCC (to_unsigned32 volume) pose mw in
      let array := QByteArray1 8 in
      let array := array ++ QByteArray1 (Z.of_nat (List.length ncc)) in
      let array := array ++ encode_doubles ncc in
      Ok {| window := mw;
            calls := [CallGetNCC (to_unsigned32 volume) pose];
            written := array |}
  | 9 =>
      threshold <- read_double data 1 ;;
      let mw := setBackground threshold mw in
      Ok {| window := mw;
            calls := [CallSetBackground threshold];
            written := QByteArray1 9 |}
  | 10 =>
      volume <- read_qint32 data 1 ;;
      camera <- read_qint32 data 5 ;;
      pose <- read_pose data 9 ;;
      let '(width, height) := uninit in
      let '(img_Data, width', height', mw) :=
        getImageData (to_unsigned32 volume) (to_unsigned32 camera) pose
          width height mw in
      let array := QByteArray1 10 in
      let array := array ++ encode_qint32 width' in
      let array := array ++ encode_qint32 height' in
      let array := array ++ img_Data in
      Ok {| window := mw;
            calls := [CallGetImageData (to_unsigned32 volume)
                        (to_unsigned32 camera) pose width height];
            written := array |}
  | 11 =>
      volumeID <- read_qint32 data 1 ;;
      frame <- read_qint32 data 5 ;;
      repeats <- read_qint32 data 9 ;;
      max_iter <- read_qint32 data 13 ;;
      min_limit <- read_double data 17 ;;
      max_limit <- read_double data 25 ;;
      stall_iter <- read_qint32 data 33 ;;
      let dframe := 1 in
      let opt_method := 0 in
      let cf_model := 0 in
      let mw := optimizeFrame volumeID frame dframe repeats opt_method
                  (to_unsigned32 max_iter) min_limit max_limit cf_model
                  (to_unsigned32 stall_iter) mw in
      Ok {| window := mw;
            calls := [CallOptimizeFrame volumeID frame dframe repeats
                        opt_method (to_unsigned32 max_iter) min_limit
                        max_limit cf_model (to_unsigned32 stall_iter)];
            written := QByteArray1 11 |}
  | 12 =>
      let mw := saveFullDRR mw in
      Ok {| window := mw;
            calls := [CallSaveFullDRR];
            written := QByteArray1 12 |}
  | _ =>
      Ok {| window := mw; calls := []; written := QByteArray1 0 |}
  end.

End Dispatcher.

Arguments handled W : clear implicits.

(** ** Connections and the Qt event loop

    A [QTcpSocket*] is the identity of the object it points to (a number
    given out once, by [nextPendingConnection]).  [objects] maps every
    [QTcpSocket] that exists to the bytes it has received and not yet handed
    out ([bytesAvailable]); [deleteLater] takes the object out of it.  [sent]
    is the log of [connection->write] calls, oldest first. *)

Section Server.

Context {W : Type} `{CommandSurface W}.

Record Socket : Type := {
  clientConnections : list nat;
  m_mainwindow : W
}.

Record Server : Type := {
  socket : Socket;
  objects : gmap nat (list byte);
  next_object : nat;
  sent : list (nat * list byte)
}.

(** [Socket::Socket(mainwindow, listenPort)] *)
Definition Socket_ctor (mainwindow : W) : Server :=
  {| socket := {| clientConnections := []; m_mainwindow := mainwindow |};
     objects := ∅;
     next_object := 0%nat;
     sent := [] |}.

(** [void Socket::createNewConnection()] *)
Definition createNewConnection (srv : Server) : Server :=
  let clientConnection := next_object srv in
  {| socket :=
       {| clientConnections :=
            clientConnections (socket srv) ++ [clientConnection];
          m_mainwindow := m_mainwindow (socket srv) |};
     objects := <[clientConnection := []]> (objects srv);
     next_object := S (next_object srv);
     sent := sent srv |}.

(** [void Socket::deleteConnection()]; [sender] is
    [dynamic_cast<QTcpSocket*>(sender())]. *)
Definition deleteConnection (sender : option nat) (srv : Server)
    : result Server :=
  let clientConnections' :=
    match sender with
    | Some obj => filter (λ c, c ≠ obj) (clientConnections (socket srv))
    | None => clientConnections (socket srv)
    end in
  match sender with
  | Some obj =>
      Ok {| socket :=
              {| clientConnections := clientConnections';
                 m_mainwindow := m_mainwindow (socket srv) |};
            objects := delete obj (objects srv);
            next_object := next_object srv;
            sent := sent srv |}
  | None => Fault NullSender
  end.

(** [void Socket::reading()] *)
Definition reading (sender : option nat) (uninit : Z * Z) (srv : Server)
    : result Server :=
  match sender with
  | Some obj =>
      match objects srv !! obj with
      | Some buffered =>
          let avail := Z.of_nat (length buffered) in
          let data := buffered in
          h <- handleMessage (m_mainwindow (socket srv)) uninit data avail ;;
          Ok {| socket :=
                  {| clientConnections := clientConnections (socket srv);
                     m_mainwindow := window h |};
                objects := <[obj := []]> (objects srv);
                next_object := next_object srv;
                sent := sent srv ++ [(obj, written h)] |}
      | None => Fault DeadObject
      end
  | None => Ok srv
  end.

(** What the event loop delivers: a pending connection on the listening
    socket, bytes arriving on a connection (with the stack contents the
    slot will find), the end of a connection. *)
Inductive event : Type :=
| NewConnection
| ReadyRead (c : nat) (chunk : list byte) (uninit : Z * Z)
| Disconnected (c : nat).

Definition receive (c : nat) (chunk : list byte) (srv : Server) : Server :=
  {| socket := socket srv;
     objects := alter (λ buffered, buffered ++ chunk) c (objects srv);
     next_object := next_object srv;
     sent := sent srv |}.

(** A signal runs the slot connected to it; only an object that exists
    emits one. *)
Definition fire (srv : Server) (ev : event) : result Server :=
  match ev with
  | NewConnection => Ok (createNewConnection srv)
  | ReadyRead c chunk uninit =>
      match objects srv !! c with
      | Some _ => reading (Some c) uninit (receive c chunk srv)
      | None => Fault DeadObject
      end
  | Disconnected c =>
      match objects srv !! c with
      | Some _ => deleteConnection (Some c) srv
      | None => Fault DeadObject
      end
  end.

Fixpoint run (srv : Server) (evs : list event) : result Server :=
  match evs with
  | [] => Ok srv
  | ev :: rest => srv' <- fire srv ev ;; run srv' rest
  end.

(** The replies written on connection [c], oldest first. *)
Definition replies_to (c : nat) (srv : Server) : list (list byte) :=
  map snd (filter (λ entry, entry.1 = c) (sent srv)).

End Server.

Arguments Socket W : clear implicits.
Arguments Server W : clear implicits.

(** ** The layout of the requests

    [min_payload op] is the number of payload bytes that the fixed fields of
    opcode [op] occupy: the end of the last field [handleMessage] reads, less
    the opcode byte. *)

Definition min_payload (opcode : Z) : Z :=
  match opcode with
  | 2 | 3 | 4 | 5 => 4
  | 6 => 8
  | 7 => 56
  | 8 => 52
  | 9 => 8
  | 10 => 56
  | 11 => 36
  | _ => 0
  end.

(** The opcodes whose reply carries no data. *)
Definition ack_opcodes : list Z := [1; 2; 3; 4; 5; 7; 9; 11; 12].

(** The requests a client sends for opcodes 6, 7, 8 and 10. *)
Definition get_pose_request (volume frame : Z) : list byte :=
  [x06] ++ encode_qint32 volume ++ encode_qint32 frame.

Definition set_pose_request (pose : list double) (volume frame : Z) : list byte :=
  [x07] ++ encode_qint32 volume ++ encode_qint32 frame ++ encode_doubles pose.

Definition get_image_request (volume camera : Z) (pose : list double) : list byte :=
  [x0a] ++ encode_qint32 volume ++ encode_qint32 camera ++ encode_doubles pose.

(** The image of four equal quadrants, as the specification words it: 255 in
    the top-left and bottom-right quadrants, 0 elsewhere. *)
Definition quadrant_pixel (width height x y : Z) : byte :=
  let right := width / 2 <=? x in
  let bottom := height / 2 <=? y in
  if Bool.eqb right bottom then xff else x00.

Definition quadrant_pattern (width height : Z) : list byte :=
  concat (map (fun y => map (fun x => quadrant_pixel width height x y)
                            (seqZ 0 width))
              (seqZ 0 height)).

(** ** The state between two events

    Every [QTcpSocket] that exists was given out by [nextPendingConnection],
    every connection in [clientConnections] exists, and no connection holds
    unread bytes: [reading] takes all of them. *)
Definition server_inv {W : Type} (srv : Server W) : Prop :=
  (forall c, is_Some (objects srv !! c) -> (c < next_object srv)%nat)
  /\ (forall c, c ∈ clientConnections (socket srv) -> is_Some (objects srv !! c))
  /\ (forall c buffered, objects srv !! c = Some buffered -> buffered = []).

(** ** More requests, and what a run shows from outside *)

(** The request a client sends for opcode 11: seven fields, packed. *)
Definition optimize_request (volumeID frame repeats max_iter : Z)
    (min_limit max_limit : double) (stall_iter : Z) : list byte :=
  [x0b] ++ encode_qint32 volumeID ++ encode_qint32 frame
        ++ encode_qint32 repeats ++ encode_qint32 max_iter
        ++ encode_double min_limit ++ encode_double max_limit
        ++ encode_qint32 stall_iter.

(** The connections whose [readyRead] was handled, in the order of the events. *)
Definition senders (evs : list event) : list nat :=
  omap (fun ev => match ev with
                  | ReadyRead c _ _ => Some c
                  | _ => None
                  end) evs.

(** The number of [newConnection] signals among the events. *)
Fixpoint accepted (evs : list event) : nat :=
  match evs with
  | [] => 0%nat
  | NewConnection :: rest => S (accepted rest)
  | _ :: rest => accepted rest
  end.

(** The number of [disconnected] signals among the events. *)
Fixpoint disconnected (evs : list event) : nat :=
  match evs with
  | [] => 0%nat
  | Disconnected _ :: rest => S (disconnected rest)
  | _ :: rest => disconnected rest
  end.

(** ** Messages, in the words of the specification

    A message of the specification is an opcode and a payload: the opcode is
    the first byte of what a read delivers, the payload the remaining bytes.
    [dispatch] is the opcode table read on such a message, every field at
    its offset within the payload and every string the rest of the payload;
    it is compared with [handleMessage], which works on the whole buffer. *)

Record Message : Type := {
  msg_opcode : Z;
  msg_payload : list byte
}.

Definition frame (chunk : list byte) : option Message :=
  match chunk with
  | [] => None
  | first :: remaining =>
      Some {| msg_opcode := Z_of_byte first; msg_payload := remaining |}
  end.

Section SpecDispatch.

Context {W : Type} `{CommandSurface W}.

Definition dispatch (mw : W) (uninit : Z * Z) (m : Message)
    : result (handled W) :=
  let payload := msg_payload m in
  let rest := Z.of_nat (length payload) in
  match msg_opcode m with
  | 1 =>
      filename <- std_string payload 0 rest ;;
      Ok {| window := openTrial (c_str filename) mw;
            calls := [CallOpenTrial (c_str filename)];
            written := [x01] |}
  | 2 =>
      filename <- std_string payload 4 (rest - 4) ;;
      volume <- read_qint32 payload 0 ;;
      Ok {| window := load_tracking_results (c_str filename)
                        true true true false false false volume mw;
            calls := [CallLoadTrackingResults (c_str filename)
                        true true true false false false volume];
            written := [x02] |}
  | 3 =>
      filename <- std_string payload 4 (rest - 4) ;;
      volume <- read_qint32 payload 0 ;;
      Ok {| window := save_tracking_results (c_str filename)
                        true true true false false false volume mw;
            calls := [CallSaveTrackingResults (c_str filename)
                        true true true false false false volume];
            written := [x03] |}
  | 4 =>
      filename <- std_string payload 4 (rest - 4) ;;
      camera <- read_qint32 payload 0 ;;
      Ok {| window := loadFilterSettings camera (c_str filename) mw;
            calls := [CallLoadFilterSettings camera (c_str filename)];
            written := [x04] |}
  | 5 =>
      frame <- read_qint32 payload 0 ;;
      Ok {| window := setFrame frame mw;
            calls := [CallSetFrame frame];
            written := [x05] |}
  | 6 =>
      volume <- read_qint32 payload 0 ;;
      frame <- read_qint32 payload 4 ;;
      let '(pose, mw) :=
        getPose (to_unsigned32 volume) (to_unsigned32 frame) mw in
      six <- vector_doubles pose 6 ;;
      Ok {| window := mw;
            calls := [CallGetPose (to_unsigned32 volume) (to_unsigned32 frame)];
            written := [x06] ++ encode_doubles six |}
  | 7 =>
      pose <- read_pose payload 8 ;;
      volume <- read_qint32 payload 0 ;;
      frame <- read_qint32 payload 4 ;;
      Ok {| window := setPose pose (to_unsigned32 volume)
                        (to_unsigned32 frame) mw;
            calls := [CallSetPose pose (to_unsigned32 volume)
                        (to_unsigned32 frame)];
            written := [x07] |}
  | 8 =>
      pose <- read_pose payload 4 ;;
      volume <- read_qint32 payload 0 ;;
      let '(ncc, mw) := getNCC (to_unsigned32 volume) pose mw in
      Ok {| window := mw;
            calls := [CallGetNCC (to_unsigned32 volume) pose];
            written := [x08] ++ [byte_of_Z (Z.of_nat (length ncc))]
                             ++ encode_doubles ncc |}
  | 9 =>
      threshold <- read_double payload 0 ;;
      Ok {| window := setBackground threshold mw;
            calls := [CallSetBackground threshold];
            written := [x09] |}
  | 10 =>
      volume <- read_qint32 payload 0 ;;
      camera <- read_qint32 payload 4 ;;
      pose <- read_pose payload 8 ;;
      let '(width, height) := uninit in
      let '(img_Data, width', height', mw) :=
        getImageData (to_unsigned32 volume) (to_unsigned32 camera) pose
          width height mw in
      Ok {| window := mw;
            calls := [CallGetImageData (to_unsigned32 volume)
                        (to_unsigned32 camera) pose width height];
            written := (([x0a] ++ encode_qint32 width')
                        ++ encode_qint32 height') ++ img_Data |}
  | 11 =>
      volumeID <- read_qint32 payload 0 ;;
      frame <- read_qint32 payload 4 ;;
      repeats <- read_qint32 payload 8 ;;
      max_iter <- read_qint32 payload 12 ;;
      min_limit <- read_double payload 16 ;;
      max_limit <- read_double payload 24 ;;
      stall_iter <- read_qint32 payload 32 ;;
      Ok {| window := optimizeFrame volumeID frame 1 repeats 0
                        (to_unsigned32 max_iter) min_limit max_limit 0
                        (to_unsigned32 stall_iter) mw;
            calls := [CallOptimizeFrame volumeID frame 1 repeats 0
                        (to_unsigned32 max_iter) min_limit max_limit 0
                        (to_unsigned32 stall_iter)];
            written := [x0b] |}
  | 12 =>
      Ok {| window := saveFullDRR mw;
            calls := [CallSaveFullDRR];
            written := [x0c] |}
  | _ =>
      Ok {| window := mw; calls := []; written := [x00] |}
  end.

End SpecDispatch.

(** * Properties *)

(** ** Bytes *)

Lemma Z_of_byte_range (b : byte) : 0 <= Z_of_byte b < 256.
Proof.
  unfold Z_of_byte. pose proof (Byte.to_N_bounded b) as Hb. lia.
Qed.

Lemma byte_of_Z_of_byte (b : byte) : byte_of_Z (Z_of_byte b) = b.
Proof.
  unfold byte_of_Z. pose proof (Z_of_byte_range b) as Hb.
  rewrite Z.mod_small by exact Hb.
  unfold Z_of_byte. rewrite N2Z.id, Byte.of_to_N. reflexivity.
Qed.

Lemma Z_of_byte_of_Z (z : Z) : Z_of_byte (byte_of_Z z) = z mod 256.
Proof.
  unfold byte_of_Z, Z_of_byte.
  pose proof (Z.mod_pos_bound z 256 ltac:(lia)) as Hz.
  destruct (Byte.of_N (Z.to_N (z mod 256))) as [b|] eqn:Hb.
  - apply Byte.to_of_N in Hb. rewrite Hb. lia.
  - apply Byte.of_N_None_iff in Hb. lia.
Qed.

Lemma byte_of_Z_mod (z : Z) : byte_of_Z (z mod 256) = byte_of_Z z.
Proof.
  unfold byte_of_Z. rewrite Z.mod_mod by lia. reflexivity.
Qed.

(** ** Little-endian fields *)

Lemma le_encode_length (n : nat) (x : Z) : length (le_encode n x) = n.
Proof.
  revert x. induction n as [|n IH]; intros x; simpl; [reflexivity|].
  rewrite IH. reflexivity.
Qed.

Lemma le_decode_range (bs : list byte) :
  0 <= le_decode bs < 256 ^ Z.of_nat (length bs).
Proof.
  induction bs as [|b bs IH].
  - simpl. lia.
  - cbn [le_decode length]. rewrite Nat2Z.inj_succ, Z.pow_succ_r by lia.
    pose proof (Z_of_byte_range b). lia.
Qed.

Lemma div_mod_256 (b r : Z) :
  0 <= b < 256 -> (b + 256 * r) mod 256 = b /\ (b + 256 * r) / 256 = r.
Proof.
  intros Hb.
  pose proof (Z.div_mod (b + 256 * r) 256 ltac:(lia)) as Hdm.
  pose proof (Z.mod_pos_bound (b + 256 * r) 256 ltac:(lia)) as Hm.
  lia.
Qed.

Lemma le_encode_decode (bs : list byte) :
  le_encode (length bs) (le_decode bs) = bs.
Proof.
  induction bs as [|b bs IH]; [reflexivity|].
  cbn [le_decode length le_encode].
  destruct (div_mod_256 (Z_of_byte b) (le_decode bs) (Z_of_byte_range b))
    as [Hmod Hdiv].
  rewrite Hdiv, IH. f_equal.
  rewrite <- byte_of_Z_mod, Hmod. apply byte_of_Z_of_byte.
Qed.

Lemma le_decode_encode (n : nat) (x : Z) :
  le_decode (le_encode n x) = x mod 256 ^ Z.of_nat n.
Proof.
  revert x. induction n as [|n IH]; intros x.
  - simpl. rewrite Z.mod_1_r. reflexivity.
  - cbn [le_encode le_decode]. rewrite IH, Z_of_byte_of_Z.
    rewrite Nat2Z.inj_succ, Z.pow_succ_r by lia.
    rewrite Z.rem_mul_r by lia. reflexivity.
Qed.

Lemma decode_encode_double (d : double) :
  is_double d -> le_decode (encode_double d) = d.
Proof.
  intros Hd. unfold encode_double. rewrite le_decode_encode.
  apply Z.mod_small. exact Hd.
Qed.

Lemma unsigned_of_signed32 (u : Z) :
  0 <= u < 2 ^ 32 -> to_unsigned32 (to_signed32 u) = u.
Proof.
  intros Hu. unfold to_unsigned32, to_signed32.
  destruct (u <? 2 ^ 31) eqn:Hlt.
  - apply Z.mod_small. exact Hu.
  - apply Z.ltb_ge in Hlt.
    replace (u - 2 ^ 32) with (u + (-1) * 2 ^ 32) by lia.
    rewrite Z.mod_add by lia. apply Z.mod_small. exact Hu.
Qed.

(** ** Reads: when they succeed and what they return *)

Lemma read_bytes_Ok (data : list byte) (off n : Z) (bs : list byte) :
  read_bytes data off n = Ok bs ->
  0 <= off /\ 0 <= n /\ off + n <= Z.of_nat (length data).
Proof.
  unfold read_bytes.
  destruct (0 <=? off) eqn:H1, (0 <=? n) eqn:H2,
    (off + n <=? Z.of_nat (length data)) eqn:H3; simpl; try discriminate.
  intros _. lia.
Qed.

Lemma read_bytes_Fault (data : list byte) (off n : Z) (f : fault) :
  read_bytes data off n = Fault f ->
  f = OutOfBounds /\ (off < 0 \/ n < 0 \/ Z.of_nat (length data) < off + n).
Proof.
  unfold read_bytes.
  destruct (0 <=? off) eqn:H1, (0 <=? n) eqn:H2,
    (off + n <=? Z.of_nat (length data)) eqn:H3; simpl; try discriminate;
    intros [= <-]; split; try reflexivity; lia.
Qed.

Lemma read_qint32_Ok (data : list byte) (off v : Z) :
  read_qint32 data off = Ok v -> 0 <= off /\ off + 4 <= Z.of_nat (length data).
Proof.
  unfold read_qint32. destruct (read_bytes data off 4) eqn:Hr; [|discriminate].
  apply read_bytes_Ok in Hr. lia.
Qed.

Lemma read_qint32_Fault (data : list byte) (off : Z) (f : fault) :
  read_qint32 data off = Fault f ->
  f = OutOfBounds /\ (off < 0 \/ Z.of_nat (length data) < off + 4).
Proof.
  unfold read_qint32. destruct (read_bytes data off 4) eqn:Hr; [discriminate|].
  intros [= <-]. apply read_bytes_Fault in Hr. split; [tauto | lia].
Qed.

Lemma read_double_Ok (data : list byte) (off : Z) (d : double) :
  read_double data off = Ok d -> 0 <= off /\ off + 8 <= Z.of_nat (length data).
Proof.
  unfold read_double. destruct (read_bytes data off 8) eqn:Hr; [|discriminate].
  apply read_bytes_Ok in Hr. lia.
Qed.

Lemma read_double_Fault (data : list byte) (off : Z) (f : fault) :
  read_double data off = Fault f ->
  f = OutOfBounds /\ (off < 0 \/ Z.of_nat (length data) < off + 8).
Proof.
  unfold read_double. destruct (read_bytes data off 8) eqn:Hr; [discriminate|].
  intros [= <-]. apply read_bytes_Fault in Hr. split; [tauto | lia].
Qed.

Lemma read_pose_Ok (data : list byte) (off : Z) (pose : list double) :
  read_pose data off = Ok pose ->
  0 <= off /\ off + 48 <= Z.of_nat (length data) /\ length pose = 6%nat.
Proof.
  unfold read_pose.
  destruct (read_double data off) eqn:H0; [|discriminate].
  destruct (read_double data (off + 8)) eqn:H1; [|discriminate].
  destruct (read_double data (off + 16)) eqn:H2; [|discriminate].
  destruct (read_double data (off + 24)) eqn:H3; [|discriminate].
  destruct (read_double data (off + 32)) eqn:H4; [|discriminate].
  destruct (read_double data (off + 40)) eqn:H5; [|discriminate].
  intros [= <-].
  apply read_double_Ok in H0, H5. repeat split; try reflexivity; lia.
Qed.

Lemma read_pose_Fault (data : list byte) (off : Z) (f : fault) :
  read_pose data off = Fault f ->
  f = OutOfBounds /\ (off < 0 \/ Z.of_nat (length data) < off + 48).
Proof.
  unfold read_pose.
  repeat match goal with
  | |- context [match read_double ?d ?o with Ok _ => _ | Fault _ => _ end] =>
      let Hr := fresh "Hr" in
      destruct (read_double d o) eqn:Hr;
      [ apply read_double_Ok in Hr
      | intros [= <-]; apply read_double_Fault in Hr; split; [tauto | lia] ]
  end.
  discriminate.
Qed.

Lemma std_string_Ok (data : list byte) (off count : Z) (s : list byte) :
  std_string data off count = Ok s ->
  0 <= off /\ 0 <= count /\ off + count <= Z.of_nat (length data).
Proof.
  unfold std_string. destruct (count <? 0); [discriminate|].
  apply read_bytes_Ok.
Qed.

Lemma std_string_Fault (data : list byte) (off count : Z) (f : fault) :
  std_string data off count = Fault f ->
  off < 0 \/ count < 0 \/ Z.of_nat (length data) < off + count.
Proof.
  unfold std_string. destruct (count <? 0) eqn:Hc.
  - intros _. apply Z.ltb_lt in Hc. lia.
  - intros Hr. apply read_bytes_Fault in Hr. tauto.
Qed.

Lemma read_uchar_head (b : byte) (payload : list byte) :
  read_uchar (b :: payload) 0 = Ok (Z_of_byte b).
Proof.
  unfold read_uchar, read_bytes.
  replace (0 + 1 <=? Z.of_nat (length (b :: payload))) with true.
  - simpl. f_equal. lia.
  - symmetry. apply Z.leb_le. simpl length. lia.
Qed.

Lemma read_bytes_app_skip (pre rest : list byte) (off n : Z) :
  Z.of_nat (length pre) <= off ->
  read_bytes (pre ++ rest) off n =
  read_bytes rest (off - Z.of_nat (length pre)) n.
Proof.
  intros Hoff. unfold read_bytes. rewrite length_app, Nat2Z.inj_add.
  replace (0 <=? off) with true by (symmetry; apply Z.leb_le; lia).
  replace (0 <=? off - Z.of_nat (length pre)) with true
    by (symmetry; apply Z.leb_le; lia).
  replace (off - Z.of_nat (length pre) + n <=? Z.of_nat (length rest))
    with (off + n <=? Z.of_nat (length pre) + Z.of_nat (length rest))
    by (apply eq_true_iff_eq; rewrite !Z.leb_le; lia).
  rewrite drop_app_ge by lia.
  replace (Z.to_nat (off - Z.of_nat (length pre)))
    with (Z.to_nat off - length pre)%nat by lia.
  reflexivity.
Qed.

Lemma read_bytes_app_here (mid post : list byte) (n : Z) :
  n = Z.of_nat (length mid) -> read_bytes (mid ++ post) 0 n = Ok mid.
Proof.
  intros ->. unfold read_bytes. rewrite length_app, Nat2Z.inj_add.
  replace (0 + Z.of_nat (length mid)
             <=? Z.of_nat (length mid) + Z.of_nat (length post)) with true
    by (symmetry; apply Z.leb_le; lia).
  replace (0 <=? Z.of_nat (length mid)) with true
    by (symmetry; apply Z.leb_le; lia).
  simpl. rewrite Nat2Z.id, drop_0, take_app_length. reflexivity.
Qed.

(** The payload is the rest of the buffer: a field at offset [off + 1] of
    the message is the field at offset [off] of the payload. *)
Lemma read_bytes_payload (b : byte) (payload : list byte) (off n : Z) :
  0 <= off ->
  read_bytes (b :: payload) (off + 1) n = read_bytes payload off n.
Proof.
  intros Hoff. change (b :: payload) with ([b] ++ payload).
  rewrite read_bytes_app_skip by (simpl; lia).
  f_equal. simpl. lia.
Qed.

(** ** The switch of [handleMessage] *)

Section DispatcherFacts.

Context {W : Type} `{CommandSurface W}.

Lemma handleMessage_default (mw : W) (uninit : Z * Z) (b : byte)
    (payload : list byte) (len : Z) :
  Z_of_byte b = 0 \/ 12 < Z_of_byte b ->
  handleMessage mw uninit (b :: payload) len =
  Ok {| window := mw; calls := []; written := [x00] |}.
Proof.
  intros Hop. unfold handleMessage. rewrite read_uchar_head.
  pose proof (Z_of_byte_range b) as Hb.
  destruct (Z_of_byte b) as [|p|p]; [reflexivity| |lia].
  destruct p as [[[[p|p|]|[p|p|]|]|[[p|p|]|[p|p|]|]|]
                |[[[p|p|]|[p|p|]|]|[[p|p|]|[p|p|]|]|]|];
    first [lia | reflexivity].
Qed.

Lemma insert_alter_id (m : gmap nat (list byte)) (c : nat)
    (f : list byte -> list byte) (x : list byte) :
  m !! c = Some x -> <[c := x]> (alter f c m) = m.
Proof.
  intros Hc. apply map_eq. intros i. destruct (decide (i = c)) as [->|Hne].
  - rewrite lookup_insert_eq. symmetry. exact Hc.
  - rewrite lookup_insert_ne by congruence.
    rewrite lookup_alter_ne by congruence. reflexivity.
Qed.

End DispatcherFacts.

(** ** The event loop *)

Section ServerFacts.

Context {W : Type} `{CommandSurface W}.

Lemma Socket_ctor_inv (mw : W) : server_inv (Socket_ctor mw).
Proof.
  unfold server_inv, Socket_ctor; simpl. repeat split.
  - intros c [x Hx]. rewrite lookup_empty in Hx. discriminate.
  - intros c Hc. inversion Hc.
  - intros c buffered Hc. rewrite lookup_empty in Hc. discriminate.
Qed.

Lemma createNewConnection_inv (srv : Server W) :
  server_inv srv -> server_inv (createNewConnection srv).
Proof.
  intros (Hfresh & Hlive & Hempty). unfold server_inv, createNewConnection; simpl.
  repeat split.
  - intros c Hc. destruct (decide (c = next_object srv)) as [->|Hne]; [lia|].
    rewrite lookup_insert_ne in Hc by congruence.
    specialize (Hfresh c Hc). lia.
  - intros c Hc. apply elem_of_app in Hc as [Hc|Hc].
    + destruct (decide (c = next_object srv)) as [->|Hne].
      * rewrite lookup_insert_eq. eauto.
      * rewrite lookup_insert_ne by congruence. auto.
    + apply list_elem_of_singleton in Hc as ->.
      rewrite lookup_insert_eq. eauto.
  - intros c buffered Hc.
    destruct (decide (c = next_object srv)) as [->|Hne].
    + rewrite lookup_insert_eq in Hc. congruence.
    + rewrite lookup_insert_ne in Hc by congruence. eauto.
Qed.

Lemma deleteConnection_inv (srv srv' : Server W) (c : nat) :
  server_inv srv -> deleteConnection (Some c) srv = Ok srv' -> server_inv srv'.
Proof.
  intros (Hfresh & Hlive & Hempty) [= <-]. unfold server_inv; simpl.
  repeat split.
  - intros i Hi. destruct (decide (i = c)) as [->|Hne].
    + rewrite lookup_delete_eq in Hi. destruct Hi as [? [=]].
    + rewrite lookup_delete_ne in Hi by congruence. auto.
  - intros i Hi. apply list_elem_of_filter in Hi as [Hne Hi].
    rewrite lookup_delete_ne by congruence. auto.
  - intros i buffered Hi. destruct (decide (i = c)) as [->|Hne].
    + rewrite lookup_delete_eq in Hi. discriminate.
    + rewrite lookup_delete_ne in Hi by congruence. eauto.
Qed.

(** [reading] on a connection without unread bytes before the event:
    the message is the chunk of this event. *)
Lemma fire_ReadyRead (srv : Server W) (c : nat) (chunk : list byte)
    (uninit : Z * Z) :
  objects srv !! c = Some [] ->
  fire srv (ReadyRead c chunk uninit) =
  (h <- handleMessage (m_mainwindow (socket srv)) uninit chunk
          (Z.of_nat (length chunk)) ;;
   Ok {| socket := {| clientConnections := clientConnections (socket srv);
                      m_mainwindow := window h |};
         objects := objects srv;
         next_object := next_object srv;
         sent := sent srv ++ [(c, written h)] |}).
Proof.
  intros Hc. unfold fire. rewrite Hc. unfold reading, receive; simpl.
  rewrite lookup_alter_eq, Hc. simpl.
  destruct (handleMessage _ _ _ _) as [h|f]; [|reflexivity].
  rewrite (insert_alter_id _ _ _ _ Hc). reflexivity.
Qed.

Lemma fire_inv (srv srv' : Server W) (ev : event) :
  server_inv srv -> fire srv ev = Ok srv' -> server_inv srv'.
Proof.
  intros Hinv Hfire. destruct ev as [|c chunk uninit|c].
  - injection Hfire as <-. apply createNewConnection_inv, Hinv.
  - pose proof Hinv as (Hfresh & Hlive & Hempty).
    destruct (objects srv !! c) as [buffered|] eqn:Hc.
    + pose proof (Hempty c buffered Hc) as ->.
      rewrite (fire_ReadyRead srv c chunk uninit Hc) in Hfire.
      destruct (handleMessage _ _ _ _) as [h|f]; [|discriminate].
      injection Hfire as <-. exact Hinv.
    + simpl in Hfire. rewrite Hc in Hfire. discriminate.
  - simpl in Hfire. destruct (objects srv !! c); [|discriminate].
    exact (deleteConnection_inv srv srv' c Hinv Hfire).
Qed.

Lemma run_app (srv : Server W) (evs1 evs2 : list event) :
  run srv (evs1 ++ evs2) = (srv1 <- run srv evs1 ;; run srv1 evs2).
Proof.
  revert srv. induction evs1 as [|ev evs1 IH]; intros srv; simpl.
  - reflexivity.
  - destruct (fire srv ev); [apply IH | reflexivity].
Qed.

Lemma run_inv (srv srv' : Server W) (evs : list event) :
  server_inv srv -> run srv evs = Ok srv' -> server_inv srv'.
Proof.
  revert srv. induction evs as [|ev evs IH]; intros srv Hinv Hrun; simpl in Hrun.
  - injection Hrun as <-. exact Hinv.
  - destruct (fire srv ev) as [srv1|f] eqn:Hfire; [|discriminate].
    eapply IH; [eapply fire_inv; eauto | exact Hrun].
Qed.

End ServerFacts.

(** ** Unrecognized opcodes *)

(** C4. A message whose first byte is 0 or greater than 12, with any payload,
    is answered with the single zero byte; the window's state is left as it
    was and no call is made through [m_mainwindow]; on the connection the
    reply is the one write, the connection still exists and
    [clientConnections] is unchanged. *)
Theorem unrecognized_opcode_zero_byte {W : Type} `{CommandSurface W}
    (srv : Server W) (c : nat) (b : byte) (payload : list byte)
    (uninit : Z * Z) :
  Z_of_byte b = 0 \/ 12 < Z_of_byte b ->
  objects srv !! c = Some [] ->
  handleMessage (m_mainwindow (socket srv)) uninit (b :: payload)
      (Z.of_nat (length (b :: payload)))
    = Ok {| window := m_mainwindow (socket srv); calls := []; written := [x00] |}
  /\ fire srv (ReadyRead c (b :: payload) uninit)
    = Ok {| socket := socket srv;
            objects := objects srv;
            next_object := next_object srv;
            sent := sent srv ++ [(c, [x00])] |}.
Proof.
  intros Hop Hc.
  pose proof (handleMessage_default (m_mainwindow (socket srv)) uninit b
                payload (Z.of_nat (length (b :: payload))) Hop) as Hh.
  split; [exact Hh|].
  rewrite (fire_ReadyRead srv c (b :: payload) uninit Hc), Hh. simpl.
  destruct srv as [[conns mw] objs next log]; reflexivity.
Qed.

Lemma unrecognized_opcode_zero_byte_witness :
  let srv := createNewConnection (Socket_ctor Mock.AutoscoperMockMainWindow_ctor) in
  (Z_of_byte xc8 = 0 \/ 12 < Z_of_byte xc8)
  /\ objects srv !! 0%nat = Some []
  /\ fire srv (ReadyRead 0%nat [xc8; x01; x02] (0, 0))
     = Ok {| socket := socket srv;
             objects := objects srv;
             next_object := next_object srv;
             sent := sent srv ++ [(0%nat, [x00])] |}.
Proof.
  intros srv.
  assert (Hop : Z_of_byte xc8 = 0 \/ 12 < Z_of_byte xc8) by (right; reflexivity).
  assert (Hc : objects srv !! 0%nat = Some []) by reflexivity.
  split; [exact Hop|]. split; [exact Hc|].
  exact (proj2 (unrecognized_opcode_zero_byte srv 0%nat xc8 [x01; x02] (0, 0)
                  Hop Hc)).
Defined.

(** ** The buffer and the message *)

Lemma read_qint32_payload (b : byte) (payload : list byte) (off : Z) :
  0 <= off -> read_qint32 (b :: payload) (off + 1) = read_qint32 payload off.
Proof.
  intros Hoff. unfold read_qint32. rewrite read_bytes_payload by exact Hoff.
  reflexivity.
Qed.

Lemma read_double_payload (b : byte) (payload : list byte) (off : Z) :
  0 <= off -> read_double (b :: payload) (off + 1) = read_double payload off.
Proof.
  intros Hoff. unfold read_double. rewrite read_bytes_payload by exact Hoff.
  reflexivity.
Qed.

Lemma read_pose_payload (b : byte) (payload : list byte) (off : Z) :
  0 <= off -> read_pose (b :: payload) (off + 1) = read_pose payload off.
Proof.
  intros Hoff. unfold read_pose.
  replace (off + 1 + 8) with (off + 8 + 1) by lia.
  replace (off + 1 + 16) with (off + 16 + 1) by lia.
  replace (off + 1 + 24) with (off + 24 + 1) by lia.
  replace (off + 1 + 32) with (off + 32 + 1) by lia.
  replace (off + 1 + 40) with (off + 40 + 1) by lia.
  rewrite !read_double_payload by lia. reflexivity.
Qed.

Lemma std_string_payload (b : byte) (payload : list byte) (off count : Z) :
  0 <= off ->
  std_string (b :: payload) (off + 1) count = std_string payload off count.
Proof.
  intros Hoff. unfold std_string. rewrite read_bytes_payload by exact Hoff.
  reflexivity.
Qed.

(** Every read of the goal at a buffer offset becomes the read of the
    payload one byte earlier. *)
Ltac payload_reads :=
  repeat match goal with
  | |- context [read_qint32 (?b :: ?p) ?o] =>
      let o' := eval vm_compute in (o - 1) in
      replace (read_qint32 (b :: p) o) with (read_qint32 p o')
        by (symmetry; apply (read_qint32_payload b p o'); lia)
  | |- context [read_double (?b :: ?p) ?o] =>
      let o' := eval vm_compute in (o - 1) in
      replace (read_double (b :: p) o) with (read_double p o')
        by (symmetry; apply (read_double_payload b p o'); lia)
  | |- context [read_pose (?b :: ?p) ?o] =>
      let o' := eval vm_compute in (o - 1) in
      replace (read_pose (b :: p) o) with (read_pose p o')
        by (symmetry; apply (read_pose_payload b p o'); lia)
  | |- context [std_string (?b :: ?p) ?o ?n] =>
      let o' := eval vm_compute in (o - 1) in
      replace (std_string (b :: p) o n) with (std_string p o' n)
        by (symmetry; apply (std_string_payload b p o' n); lia)
  end.

(** [handleMessage] on a buffer is [dispatch] on the message framed from it:
    it switches on the first byte and takes every field and string from the
    bytes after it. *)
Lemma handleMessage_dispatch {W : Type} `{CommandSurface W}
    (mw : W) (uninit : Z * Z) (b : byte) (payload : list byte) :
  handleMessage mw uninit (b :: payload) (Z.of_nat (length (b :: payload)))
  = dispatch mw uninit
      {| msg_opcode := Z_of_byte b; msg_payload := payload |}.
Proof.
  unfold handleMessage, dispatch. cbn [msg_opcode msg_payload].
  rewrite read_uchar_head.
  replace (Z.of_nat (length (b :: payload)) - 1)
    with (Z.of_nat (length payload)) by (simpl length; lia).
  replace (Z.of_nat (length (b :: payload)) - 5)
    with (Z.of_nat (length payload) - 4) by (simpl length; lia).
  generalize (Z.of_nat (length payload)). intros rest.
  destruct (Z_of_byte b) as [|p|p]; [reflexivity| |reflexivity].
  destruct p as [[[[p|p|]|[p|p|]|]|[[p|p|]|[p|p|]|]|]
                |[[[p|p|]|[p|p|]|]|[[p|p|]|[p|p|]|]|]|];
    try reflexivity; payload_reads; reflexivity.
Qed.

(** ** Framing *)

(** C2. In every state the server reaches, bytes arriving on a connection are
    dispatched at once as one message.  The connection holds no unread bytes
    before the event and none after it; [handleMessage] gets exactly the
    bytes of this event with their count as [length], and what it does is
    [dispatch] on the message whose opcode is the first byte and whose
    payload is all the remaining bytes.  The next bytes to arrive are a
    message of their own, switched on their own first byte: nothing is
    carried from one event to the next, and a request cut in two is never
    put together again. *)
Theorem reading_one_message_per_event {W : Type} `{CommandSurface W}
    (mw : W) (evs : list event) (srv : Server W) (c : nat) (b : byte)
    (payload : list byte) (uninit : Z * Z) (b' : byte)
    (payload' : list byte) (uninit' : Z * Z) :
  run (Socket_ctor mw) evs = Ok srv ->
  is_Some (objects srv !! c) ->
  objects srv !! c = Some []
  /\ frame (b :: payload)
     = Some {| msg_opcode := Z_of_byte b; msg_payload := payload |}
  /\ handleMessage (m_mainwindow (socket srv)) uninit (b :: payload)
       (Z.of_nat (length (b :: payload)))
     = dispatch (m_mainwindow (socket srv)) uninit
         {| msg_opcode := Z_of_byte b; msg_payload := payload |}
  /\ fire srv (ReadyRead c (b :: payload) uninit)
     = (h <- handleMessage (m_mainwindow (socket srv)) uninit (b :: payload)
               (1 + Z.of_nat (length payload)) ;;
        Ok {| socket := {| clientConnections := clientConnections (socket srv);
                           m_mainwindow := window h |};
              objects := objects srv;
              next_object := next_object srv;
              sent := sent srv ++ [(c, written h)] |})
  /\ fire srv (ReadyRead c (b :: payload) uninit)
     = (h <- dispatch (m_mainwindow (socket srv)) uninit
               {| msg_opcode := Z_of_byte b; msg_payload := payload |} ;;
        Ok {| socket := {| clientConnections := clientConnections (socket srv);
                           m_mainwindow := window h |};
              objects := objects srv;
              next_object := next_object srv;
              sent := sent srv ++ [(c, written h)] |})
  /\ run srv [ReadyRead c (b :: payload) uninit;
              ReadyRead c (b' :: payload') uninit']
     = (h <- dispatch (m_mainwindow (socket srv)) uninit
               {| msg_opcode := Z_of_byte b; msg_payload := payload |} ;;
        h' <- dispatch (window h) uninit'
                {| msg_opcode := Z_of_byte b'; msg_payload := payload' |} ;;
        Ok {| socket := {| clientConnections := clientConnections (socket srv);
                           m_mainwindow := window h' |};
              objects := objects srv;
              next_object := next_object srv;
              sent := (sent srv ++ [(c, written h)]) ++ [(c, written h')] |})
  /\ read_uchar (b :: payload) 0 = Ok (Z_of_byte b)
  /\ (forall off n, 0 <= off ->
        read_bytes (b :: payload) (off + 1) n = read_bytes payload off n).
Proof.
  intros Hrun [buffered Hc].
  pose proof (run_inv _ _ _ (Socket_ctor_inv mw) Hrun) as (_ & _ & Hempty).
  pose proof (Hempty c buffered Hc) as ->.
  pose proof (handleMessage_dispatch (m_mainwindow (socket srv)) uninit b
                payload) as Hd.
  assert (Hfire : fire srv (ReadyRead c (b :: payload) uninit)
     = (h <- dispatch (m_mainwindow (socket srv)) uninit
               {| msg_opcode := Z_of_byte b; msg_payload := payload |} ;;
        Ok {| socket := {| clientConnections := clientConnections (socket srv);
                           m_mainwindow := window h |};
              objects := objects srv;
              next_object := next_object srv;
              sent := sent srv ++ [(c, written h)] |})).
  { rewrite (fire_ReadyRead srv c (b :: payload) uninit Hc), Hd. reflexivity. }
  split; [exact Hc|]. split; [reflexivity|]. split; [exact Hd|]. split.
  { rewrite (fire_ReadyRead srv c (b :: payload) uninit Hc).
    replace (Z.of_nat (length (b :: payload)))
      with (1 + Z.of_nat (length payload)) by (simpl length; lia).
    reflexivity. }
  split; [exact Hfire|]. split.
  { cbn [run]. rewrite Hfire.
    destruct (dispatch (m_mainwindow (socket srv)) uninit
                {| msg_opcode := Z_of_byte b; msg_payload := payload |})
      as [h|f]; [|reflexivity].
    match goal with
    | |- context [fire ?s (ReadyRead c (b' :: payload') uninit')] =>
        set (srv1 := s)
    end.
    assert (Hc1 : objects srv1 !! c = Some []) by exact Hc.
    rewrite (fire_ReadyRead srv1 c (b' :: payload') uninit' Hc1).
    rewrite (handleMessage_dispatch (m_mainwindow (socket srv1)) uninit' b'
               payload').
    subst srv1. cbn [socket m_mainwindow].
    destruct (dispatch (window h) uninit'
                {| msg_opcode := Z_of_byte b'; msg_payload := payload' |})
      as [h'|f']; reflexivity. }
  split; [apply read_uchar_head|].
  intros off n Hoff. apply read_bytes_payload. exact Hoff.
Qed.

Lemma reading_one_message_per_event_witness :
  let mw := Mock.AutoscoperMockMainWindow_ctor in
  let srv := createNewConnection (Socket_ctor mw) in
  run (Socket_ctor mw) [NewConnection] = Ok srv
  /\ is_Some (objects srv !! 0%nat)
  /\ objects srv !! 0%nat = Some []
  /\ run srv [ReadyRead 0%nat [x01; x61] (0, 0);
              ReadyRead 0%nat [x62; x63] (0, 0)]
     = (h <- dispatch (m_mainwindow (socket srv)) (0, 0)
               {| msg_opcode := Z_of_byte x01; msg_payload := [x61] |} ;;
        h' <- dispatch (window h) (0, 0)
                {| msg_opcode := Z_of_byte x62; msg_payload := [x63] |} ;;
        Ok {| socket := {| clientConnections := clientConnections (socket srv);
                           m_mainwindow := window h' |};
              objects := objects srv;
              next_object := next_object srv;
              sent := (sent srv ++ [(0%nat, written h)])
                      ++ [(0%nat, written h')] |}).
Proof.
  intros mw srv.
  assert (Hrun : run (Socket_ctor mw) [NewConnection] = Ok srv) by reflexivity.
  assert (Hc : is_Some (objects srv !! 0%nat)) by (exists []; reflexivity).
  split; [exact Hrun|]. split; [exact Hc|].
  destruct (reading_one_message_per_event mw [NewConnection] srv 0%nat x01
              [x61] (0, 0) x62 [x63] (0, 0) Hrun Hc)
    as (Hempty & _ & _ & _ & _ & Htwo & _).
  split; [exact Hempty | exact Htwo].
Defined.

(** ** Replies to the recognized opcodes *)

(** Case analysis on every read of the goal, keeping the bounds each outcome
    implies. *)
Ltac destruct_reads :=
  repeat match goal with
  | |- context [match ?r with Ok _ => _ | Fault _ => _ end] =>
      let E := fresh "E" in
      lazymatch r with
      | std_string _ _ _ =>
          destruct r eqn:E;
          [apply std_string_Ok in E | apply std_string_Fault in E]
      | read_qint32 _ _ =>
          destruct r eqn:E;
          [apply read_qint32_Ok in E | apply read_qint32_Fault in E]
      | read_double _ _ =>
          destruct r eqn:E;
          [apply read_double_Ok in E | apply read_double_Fault in E]
      | read_pose _ _ =>
          destruct r eqn:E;
          [apply read_pose_Ok in E | apply read_pose_Fault in E]
      | _ => destruct r eqn:E
      end
  end.

(** The opcode byte, once its value is known. *)
Ltac know_opcode b Hop :=
  let Hb := fresh "Hb" in
  pose proof (byte_of_Z_of_byte b) as Hb;
  rewrite Hop in Hb; vm_compute in Hb; subst b.

Section Replies.

Context {W : Type} `{CommandSurface W}.

Lemma handleMessage_ack (mw : W) (uninit : Z * Z) (b : byte)
    (payload : list byte) :
  In (Z_of_byte b) ack_opcodes ->
  min_payload (Z_of_byte b) <= Z.of_nat (length payload) ->
  exists h,
    handleMessage mw uninit (b :: payload) (Z.of_nat (length (b :: payload)))
      = Ok h
    /\ written h = [b].
Proof.
  intros Hin Hmin.
  assert (Hlen : Z.of_nat (length (b :: payload))
                 = 1 + Z.of_nat (length payload)) by (simpl length; lia).
  unfold handleMessage. rewrite read_uchar_head.
  simpl in Hin.
  repeat (destruct Hin as [Hop|Hin]; [symmetry in Hop|]); [..|contradiction];
    know_opcode b Hop; rewrite Hop in Hmin; cbv [min_payload] in Hmin;
    rewrite Hlen; cbv beta iota;
    generalize dependent (Z.of_nat (length payload)); intros n Hlen Hmin;
    destruct_reads; try (exfalso; lia);
    (eexists; split; [reflexivity|reflexivity]).
Qed.

End Replies.

(** C3. A message with opcode 1, 2, 3, 4, 5, 7, 9, 11 or 12 whose payload
    holds the opcode's fixed fields is answered with exactly one byte, the
    opcode itself: the reply is neither empty nor the zero byte, and it is
    the one write on the connection. *)
Theorem ack_reply_is_opcode_echo {W : Type} `{CommandSurface W}
    (srv : Server W) (c : nat) (b : byte) (payload : list byte)
    (uninit : Z * Z) :
  In (Z_of_byte b) ack_opcodes ->
  min_payload (Z_of_byte b) <= Z.of_nat (length payload) ->
  objects srv !! c = Some [] ->
  exists h,
    handleMessage (m_mainwindow (socket srv)) uninit (b :: payload)
        (Z.of_nat (length (b :: payload))) = Ok h
    /\ written h = [b]
    /\ written h <> []
    /\ written h <> [x00]
    /\ fire srv (ReadyRead c (b :: payload) uninit)
       = Ok {| socket := {| clientConnections := clientConnections (socket srv);
                            m_mainwindow := window h |};
               objects := objects srv;
               next_object := next_object srv;
               sent := sent srv ++ [(c, [b])] |}.
Proof.
  intros Hin Hmin Hc.
  destruct (handleMessage_ack (m_mainwindow (socket srv)) uninit b payload
              Hin Hmin) as (h & Hh & Hw).
  exists h. split; [exact Hh|]. split; [exact Hw|].
  split; [rewrite Hw; discriminate|]. split.
  - rewrite Hw. intros [= ->]. vm_compute in Hin. intuition discriminate.
  - rewrite (fire_ReadyRead srv c (b :: payload) uninit Hc), Hh, Hw.
    reflexivity.
Qed.

Lemma ack_reply_is_opcode_echo_witness :
  let srv := createNewConnection (Socket_ctor Mock.AutoscoperMockMainWindow_ctor) in
  In (Z_of_byte x05) ack_opcodes
  /\ min_payload (Z_of_byte x05) <= Z.of_nat (length [x2a; x00; x00; x00])
  /\ objects srv !! 0%nat = Some []
  /\ exists h,
       handleMessage (m_mainwindow (socket srv)) (0, 0)
         [x05; x2a; x00; x00; x00] 5 = Ok h
       /\ written h = [x05].
Proof.
  intros srv.
  assert (Hin : In (Z_of_byte x05) ack_opcodes) by (vm_compute; tauto).
  assert (Hmin : min_payload (Z_of_byte x05)
                 <= Z.of_nat (length [x2a; x00; x00; x00]))
    by (vm_compute; discriminate).
  assert (Hc : objects srv !! 0%nat = Some []) by reflexivity.
  split; [exact Hin|]. split; [exact Hmin|]. split; [exact Hc|].
  destruct (ack_reply_is_opcode_echo srv 0%nat x05 [x2a; x00; x00; x00] (0, 0)
              Hin Hmin Hc) as (h & Hh & Hw & _).
  exists h. split; [exact Hh | exact Hw].
Defined.

(** ** Short payloads *)

Section ShortPayloads.

Context {W : Type} `{CommandSurface W}.

(** Whatever [handleMessage] writes for an opcode from 1 to 12 starts with
    the opcode byte. *)
Lemma handleMessage_reply_head (mw : W) (uninit : Z * Z) (b : byte)
    (payload : list byte) (len : Z) (h : handled W) :
  1 <= Z_of_byte b <= 12 ->
  handleMessage mw uninit (b :: payload) len = Ok h ->
  head (written h) = Some b.
Proof.
  intros Hop.
  assert (Hcases : In (Z_of_byte b) [1; 2; 3; 4; 5; 6; 7; 8; 9; 10; 11; 12])
    by (simpl; lia).
  clear Hop. unfold handleMessage. rewrite read_uchar_head.
  simpl in Hcases.
  repeat (destruct Hcases as [Hop|Hcases]; [symmetry in Hop|]);
    [..|contradiction];
    know_opcode b Hop; rewrite Hop; cbv beta iota;
    destruct_reads; try discriminate;
    repeat match goal with
    | |- context [let '(_, _) := ?e in _] => destruct e
    end;
    destruct_reads; try discriminate;
    intros [= <-]; reflexivity.
Qed.

(** No length is checked.  For opcodes 2, 3 and 4 fewer than four payload
    bytes make the count of the file name negative: the string is never
    built and no field is read. *)
Lemma handleMessage_short_string (mw : W) (uninit : Z * Z) (b : byte)
    (payload : list byte) :
  2 <= Z_of_byte b <= 4 ->
  Z.of_nat (length payload) < min_payload (Z_of_byte b) ->
  handleMessage mw uninit (b :: payload) (Z.of_nat (length (b :: payload)))
  = Fault LengthError.
Proof.
  intros Hop Hshort.
  assert (Hcases : In (Z_of_byte b) [2; 3; 4]) by (simpl; lia).
  clear Hop.
  assert (Hstr : std_string (b :: payload) 5
                   (Z.of_nat (length (b :: payload)) - 5) = Fault LengthError).
  { unfold std_string.
    replace (Z.of_nat (length (b :: payload)) - 5 <? 0) with true;
      [reflexivity|].
    symmetry. apply Z.ltb_lt. simpl length.
    simpl in Hcases. destruct Hcases as [Hb|[Hb|[Hb|[]]]];
      rewrite <- Hb in Hshort; cbv [min_payload] in Hshort; lia. }
  unfold handleMessage. rewrite read_uchar_head.
  simpl in Hcases.
  repeat (destruct Hcases as [Hb|Hcases]; [symmetry in Hb|]);
    [..|contradiction];
    know_opcode b Hb; rewrite Hb; cbv beta iota; rewrite Hstr; reflexivity.
Qed.

(** For opcodes 5 to 11 fewer payload bytes than the fixed fields take make
    a field be read past the end of the buffer. *)
Lemma handleMessage_short_fields (mw : W) (uninit : Z * Z) (b : byte)
    (payload : list byte) :
  5 <= Z_of_byte b <= 11 ->
  Z.of_nat (length payload) < min_payload (Z_of_byte b) ->
  handleMessage mw uninit (b :: payload) (Z.of_nat (length (b :: payload)))
  = Fault OutOfBounds.
Proof.
  intros Hop Hshort.
  assert (Hcases : In (Z_of_byte b) [5; 6; 7; 8; 9; 10; 11])
    by (simpl; lia).
  clear Hop.
  assert (Hlen : Z.of_nat (length (b :: payload))
                 = 1 + Z.of_nat (length payload)) by (simpl length; lia).
  unfold handleMessage. rewrite read_uchar_head.
  simpl in Hcases.
  repeat (destruct Hcases as [Hop|Hcases]; [symmetry in Hop|]);
    [..|contradiction];
    know_opcode b Hop; rewrite Hop in Hshort; cbv [min_payload] in Hshort;
    rewrite Hlen; cbv beta iota;
    generalize dependent (Z.of_nat (length payload)); intros n Hlen Hshort;
    destruct_reads; try (exfalso; lia);
    match goal with
    | E : _ = OutOfBounds /\ _ |- _ => destruct E as [-> _]; reflexivity
    end.
Qed.

End ShortPayloads.

(** C1 as stated fails: opcode 5 with no payload byte is not answered with
    the zero byte; the frame is read at offsets 1 to 4 of a one-byte buffer. *)
Lemma short_payload_not_rejected :
  Z.of_nat (length (@nil byte)) < min_payload (Z_of_byte x05)
  /\ handleMessage Mock.AutoscoperMockMainWindow_ctor (0, 0) [x05] 1
     = Fault OutOfBounds
  /\ ~ (exists h,
          handleMessage Mock.AutoscoperMockMainWindow_ctor (0, 0) [x05] 1 = Ok h
          /\ written h = [x00]).
Proof.
  split; [reflexivity|]. split; [reflexivity|].
  intros (h & Hh & _). vm_compute in Hh. discriminate.
Qed.

(** C1, amended. For an opcode from 1 to 12 the dispatcher checks no length
    and a short payload is not turned into the zero-byte reply.  For opcodes
    5 to 11 a payload shorter than the fixed fields makes [handleMessage]
    read a field past the end of the received bytes (undefined behaviour of
    the source, the fault [OutOfBounds] of the model).  For opcodes 2, 3 and
    4 a payload shorter than four bytes gives the file name a negative
    count: [std::string] throws before any field is read (the fault
    [LengthError]).  Opcodes 1 and 12 have no fixed field.  And whatever
    [handleMessage] answers to an opcode from 1 to 12 starts with the opcode
    byte, so it is never the single zero byte. *)
Theorem short_payload_faults {W : Type} `{CommandSurface W}
    (mw : W) (uninit : Z * Z) (b : byte) (payload : list byte) :
  1 <= Z_of_byte b <= 12 ->
  (Z.of_nat (length payload) < min_payload (Z_of_byte b) ->
   handleMessage mw uninit (b :: payload) (Z.of_nat (length (b :: payload)))
   = Fault (if Z_of_byte b <=? 4 then LengthError else OutOfBounds))
  /\ (Z.of_nat (length payload) < min_payload (Z_of_byte b) ->
      2 <= Z_of_byte b <= 11)
  /\ (forall h,
        handleMessage mw uninit (b :: payload)
          (Z.of_nat (length (b :: payload))) = Ok h ->
        head (written h) = Some b /\ written h <> [x00]).
Proof.
  intros Hop.
  assert (Hrange : Z.of_nat (length payload) < min_payload (Z_of_byte b) ->
                   2 <= Z_of_byte b <= 11).
  { intros Hshort.
    assert (Z_of_byte b = 1 \/ Z_of_byte b = 12 \/ 2 <= Z_of_byte b <= 11)
      as [Hb|[Hb|Hb]] by lia; [| |exact Hb];
      rewrite Hb in Hshort; cbv [min_payload] in Hshort; lia. }
  split; [|split; [exact Hrange|]].
  - intros Hshort. specialize (Hrange Hshort).
    destruct (Z_of_byte b <=? 4) eqn:Hle.
    + apply Z.leb_le in Hle.
      apply handleMessage_short_string; [lia | exact Hshort].
    + apply Z.leb_gt in Hle.
      apply handleMessage_short_fields; [lia | exact Hshort].
  - intros h Hh.
    pose proof (handleMessage_reply_head mw uninit b payload _ h Hop Hh) as Hhead.
    split; [exact Hhead|].
    intros Hw. rewrite Hw in Hhead. injection Hhead as <-.
    vm_compute in Hop. destruct Hop as [Hop _]. apply Hop. reflexivity.
Qed.

Lemma short_payload_faults_witness :
  (1 <= Z_of_byte x06 <= 12)
  /\ Z.of_nat (length [x00; x00; x00]) < min_payload (Z_of_byte x06)
  /\ handleMessage Mock.AutoscoperMockMainWindow_ctor (0, 0)
       [x06; x00; x00; x00] 4 = Fault OutOfBounds
  /\ (1 <= Z_of_byte x03 <= 12)
  /\ Z.of_nat (length [x00; x00; x00]) < min_payload (Z_of_byte x03)
  /\ handleMessage Mock.AutoscoperMockMainWindow_ctor (0, 0)
       [x03; x00; x00; x00] 4 = Fault LengthError.
Proof.
  assert (Hop : 1 <= Z_of_byte x06 <= 12) by (vm_compute; split; discriminate).
  assert (Hshort : Z.of_nat (length [x00; x00; x00]) < min_payload (Z_of_byte x06))
    by reflexivity.
  assert (Hop3 : 1 <= Z_of_byte x03 <= 12) by (vm_compute; split; discriminate).
  assert (Hshort3 : Z.of_nat (length [x00; x00; x00])
                    < min_payload (Z_of_byte x03)) by reflexivity.
  split; [exact Hop|]. split; [exact Hshort|]. split.
  - exact (proj1 (short_payload_faults Mock.AutoscoperMockMainWindow_ctor
                    (0, 0) x06 [x00; x00; x00] Hop) Hshort).
  - split; [exact Hop3|]. split; [exact Hshort3|].
    exact (proj1 (short_payload_faults Mock.AutoscoperMockMainWindow_ctor
                    (0, 0) x03 [x00; x00; x00] Hop3) Hshort3).
Defined.

(** ** Reading back what a client encodes *)

Lemma read_bytes_at (pre mid post : list byte) (off n : Z) :
  off = Z.of_nat (length pre) -> n = Z.of_nat (length mid) ->
  read_bytes (pre ++ mid ++ post) off n = Ok mid.
Proof.
  intros -> ->. rewrite read_bytes_app_skip by lia.
  rewrite Z.sub_diag. apply read_bytes_app_here. reflexivity.
Qed.

Lemma read_qint32_encoded (pre post : list byte) (v off : Z) :
  off = Z.of_nat (length pre) ->
  read_qint32 (pre ++ encode_qint32 v ++ post) off
  = Ok (to_signed32 (v mod 2 ^ 32)).
Proof.
  intros Hoff. unfold read_qint32.
  rewrite (read_bytes_at pre (encode_qint32 v) post off 4 Hoff)
    by (unfold encode_qint32; rewrite le_encode_length; reflexivity).
  unfold encode_qint32. rewrite le_decode_encode. reflexivity.
Qed.

Lemma read_double_encoded (pre post : list byte) (d : double) (off : Z) :
  off = Z.of_nat (length pre) -> is_double d ->
  read_double (pre ++ encode_double d ++ post) off = Ok d.
Proof.
  intros Hoff Hd. unfold read_double.
  rewrite (read_bytes_at pre (encode_double d) post off 8 Hoff)
    by (unfold encode_double; rewrite le_encode_length; reflexivity).
  rewrite decode_encode_double by exact Hd. reflexivity.
Qed.

Lemma encode_double_length (d : double) : length (encode_double d) = 8%nat.
Proof. apply le_encode_length. Qed.

Lemma encode_qint32_length (v : Z) : length (encode_qint32 v) = 4%nat.
Proof. apply le_encode_length. Qed.

Lemma encode_doubles_cons (d : double) (ds : list double) :
  encode_doubles (d :: ds) = encode_double d ++ encode_doubles ds.
Proof. reflexivity. Qed.

Lemma encode_doubles_length (ds : list double) :
  length (encode_doubles ds) = (8 * length ds)%nat.
Proof.
  induction ds as [|d ds IH]; [reflexivity|].
  rewrite encode_doubles_cons, length_app, encode_double_length, IH.
  simpl length. lia.
Qed.

(** The [k]-th double of an encoded sequence sits [8 * k] bytes in. *)
Lemma read_double_nth (ds : list double) :
  forall (pre post : list byte) (k : nat) (d : double) (off : Z),
  Forall is_double ds -> ds !! k = Some d ->
  off = Z.of_nat (length pre) + 8 * Z.of_nat k ->
  read_double (pre ++ encode_doubles ds ++ post) off = Ok d.
Proof.
  induction ds as [|d0 ds IH]; intros pre post k d off Hall Hk Hoff.
  - discriminate.
  - apply Forall_cons in Hall as [Hd0 Hall].
    rewrite encode_doubles_cons, <- app_assoc.
    destruct k as [|k].
    + injection Hk as <-. apply read_double_encoded; [lia | exact Hd0].
    + rewrite app_assoc.
      apply (IH (pre ++ encode_double d0) post k d off Hall Hk).
      rewrite length_app, encode_double_length. lia.
Qed.

Lemma read_pose_encoded (pre post : list byte) (pose : list double) (off : Z) :
  off = Z.of_nat (length pre) -> length pose = 6%nat ->
  Forall is_double pose ->
  read_pose (pre ++ encode_doubles pose ++ post) off = Ok pose.
Proof.
  intros Hoff Hlen Hall.
  destruct pose as [|d0 [|d1 [|d2 [|d3 [|d4 [|d5 [|]]]]]]]; try discriminate.
  unfold read_pose.
  rewrite (read_double_nth _ pre post 0 d0 off Hall eq_refl) by lia.
  rewrite (read_double_nth _ pre post 1 d1 (off + 8) Hall eq_refl) by lia.
  rewrite (read_double_nth _ pre post 2 d2 (off + 16) Hall eq_refl) by lia.
  rewrite (read_double_nth _ pre post 3 d3 (off + 24) Hall eq_refl) by lia.
  rewrite (read_double_nth _ pre post 4 d4 (off + 32) Hall eq_refl) by lia.
  rewrite (read_double_nth _ pre post 5 d5 (off + 40) Hall eq_refl) by lia.
  reflexivity.
Qed.

(** ** Poses *)

Lemma set_pose_request_fields (pose : list double) (volume frame : Z) :
  length pose = 6%nat -> Forall is_double pose ->
  let data := set_pose_request pose volume frame in
  read_uchar data 0 = Ok 7
  /\ read_qint32 data 1 = Ok (to_signed32 (volume mod 2 ^ 32))
  /\ read_qint32 data 5 = Ok (to_signed32 (frame mod 2 ^ 32))
  /\ read_pose data 9 = Ok pose.
Proof.
  intros Hlen Hall data. subst data. unfold set_pose_request.
  split; [apply read_uchar_head|]. split; [|split].
  - apply read_qint32_encoded. reflexivity.
  - rewrite (app_assoc [x07]). apply read_qint32_encoded.
    rewrite length_app, encode_qint32_length. reflexivity.
  - rewrite <- (app_nil_r (encode_doubles pose)).
    rewrite (app_assoc (encode_qint32 volume)), (app_assoc [x07]).
    apply read_pose_encoded; [|exact Hlen|exact Hall].
    rewrite !length_app, !encode_qint32_length. reflexivity.
Qed.

Lemma get_pose_request_fields (volume frame : Z) :
  let data := get_pose_request volume frame in
  read_uchar data 0 = Ok 6
  /\ read_qint32 data 1 = Ok (to_signed32 (volume mod 2 ^ 32))
  /\ read_qint32 data 5 = Ok (to_signed32 (frame mod 2 ^ 32)).
Proof.
  intros data. subst data. unfold get_pose_request.
  split; [apply read_uchar_head|]. split.
  - apply read_qint32_encoded. reflexivity.
  - rewrite <- (app_nil_r (encode_qint32 frame)), (app_assoc [x06]).
    apply read_qint32_encoded.
    rewrite length_app, encode_qint32_length. reflexivity.
Qed.

Lemma unsigned_of_signed32_mod (v : Z) :
  to_unsigned32 (to_signed32 (v mod 2 ^ 32)) = v mod 2 ^ 32.
Proof.
  apply unsigned_of_signed32. apply Z.mod_pos_bound. lia.
Qed.

(** C5. On the mock Command Surface, [setPose(p, v, f)] followed by
    [getPose(v, f)] returns [p]; on the wire, after the opcode-7 request
    carrying the six doubles of [p] is acknowledged, the opcode-6 request for
    the same volume and frame is answered with byte 6 and the 48 bytes that
    encode [p], bit for bit. *)
Theorem set_pose_then_get_pose (mw : Mock.AutoscoperMockMainWindow)
    (uninit uninit' : Z * Z) (pose : list double) (volume frame : Z) :
  length pose = 6%nat ->
  Forall is_double pose ->
  fst (Mock.getPose volume frame (Mock.setPose pose volume frame mw)) = pose
  /\ exists h7 h6,
       handleMessage mw uninit (set_pose_request pose volume frame)
         (Z.of_nat (length (set_pose_request pose volume frame))) = Ok h7
       /\ written h7 = [x07]
       /\ calls h7 = [CallSetPose pose (volume mod 2 ^ 32) (frame mod 2 ^ 32)]
       /\ handleMessage (window h7) uninit' (get_pose_request volume frame)
            (Z.of_nat (length (get_pose_request volume frame))) = Ok h6
       /\ written h6 = [x06] ++ encode_doubles pose
       /\ calls h6 = [CallGetPose (volume mod 2 ^ 32) (frame mod 2 ^ 32)].
Proof.
  intros Hlen Hall. split; [reflexivity|].
  destruct (set_pose_request_fields pose volume frame Hlen Hall)
    as (H7 & H7v & H7f & H7p).
  destruct (get_pose_request_fields volume frame) as (H6 & H6v & H6f).
  eexists _, _. split.
  - unfold handleMessage. rewrite H7. cbv beta iota.
    rewrite H7p, H7v, H7f. reflexivity.
  - split; [reflexivity|]. split.
    + simpl. rewrite !unsigned_of_signed32_mod. reflexivity.
    + split.
      * unfold handleMessage. rewrite H6. cbv beta iota.
        rewrite H6v, H6f. simpl getPose. unfold Mock.getPose, Mock.setPose.
        simpl Mock.Pose. unfold vector_doubles.
        rewrite Hlen. simpl Nat.leb. cbv beta iota.
        rewrite firstn_all2 by lia. reflexivity.
      * split; [reflexivity|].
        simpl. rewrite !unsigned_of_signed32_mod. reflexivity.
Qed.

Lemma set_pose_then_get_pose_witness :
  let pose := [binary64_of_Q 5 10; binary64_of_Q 3 2; 0; binary64_of_Q 7 1;
               binary64_of_Q 1 3; 2 ^ 64 - 1] in
  length pose = 6%nat
  /\ Forall is_double pose
  /\ fst (Mock.getPose 2 9 (Mock.setPose pose 2 9
                              Mock.AutoscoperMockMainWindow_ctor)) = pose.
Proof.
  intros pose.
  assert (Hlen : length pose = 6%nat) by reflexivity.
  assert (Hall : Forall is_double pose).
  { repeat constructor; vm_compute; discriminate. }
  split; [exact Hlen|]. split; [exact Hall|].
  exact (proj1 (set_pose_then_get_pose Mock.AutoscoperMockMainWindow_ctor
                  (0, 0) (0, 0) pose 2 9 Hlen Hall)).
Defined.

(** C6. The request [06 | 00 00 00 00 | 00 00 00 00] on the mock as
    constructed, whose pose is [0.1, 1.2, 2.3, 3.4, 4.5, 6.7], is answered
    with byte 6 followed by the 48 bytes of these six doubles, each in
    little-endian order. *)
Theorem get_pose_initial_reply (uninit : Z * Z) :
  get_pose_request 0 0 = [x06; x00; x00; x00; x00; x00; x00; x00; x00]
  /\ fst (Mock.getPose 0 0 Mock.AutoscoperMockMainWindow_ctor)
     = [binary64_of_Q 1 10; binary64_of_Q 12 10; binary64_of_Q 23 10;
        binary64_of_Q 34 10; binary64_of_Q 45 10; binary64_of_Q 67 10]
  /\ exists h,
       handleMessage Mock.AutoscoperMockMainWindow_ctor uninit
         (get_pose_request 0 0) 9 = Ok h
       /\ window h = Mock.AutoscoperMockMainWindow_ctor
       /\ written h
          = [x06] ++ encode_doubles
                       [binary64_of_Q 1 10; binary64_of_Q 12 10;
                        binary64_of_Q 23 10; binary64_of_Q 34 10;
                        binary64_of_Q 45 10; binary64_of_Q 67 10]
       /\ written h
          = [x06;
             x9a; x99; x99; x99; x99; x99; xb9; x3f;
             x33; x33; x33; x33; x33; x33; xf3; x3f;
             x66; x66; x66; x66; x66; x66; x02; x40;
             x33; x33; x33; x33; x33; x33; x0b; x40;
             x00; x00; x00; x00; x00; x00; x12; x40;
             xcd; xcc; xcc; xcc; xcc; xcc; x1a; x40].
Proof.
  split; [reflexivity|]. split; [reflexivity|].
  eexists. split; [vm_compute; reflexivity|].
  split; [reflexivity|]. split; reflexivity.
Qed.

(** ** Correlations *)

(** C7. An opcode-8 request whose payload holds the volume and the six
    doubles is answered with byte 8, then one byte made from the number of
    values [getNCC] returned, then these values, eight bytes each, in
    order.  The count byte is the count itself whenever the count is at most
    255, and at every eighth offset of the data the next value is read
    back.  The mock returns a single value. *)
Theorem correlation_reply_layout {W : Type} `{CommandSurface W}
    (mw : W) (uninit : Z * Z) (payload : list byte) :
  min_payload 8 <= Z.of_nat (length payload) ->
  exists volume pose ncc mw',
    read_qint32 (x08 :: payload) 1 = Ok volume
    /\ read_pose (x08 :: payload) 5 = Ok pose
    /\ getNCC (to_unsigned32 volume) pose mw = (ncc, mw')
    /\ handleMessage mw uninit (x08 :: payload)
         (Z.of_nat (length (x08 :: payload)))
       = Ok {| window := mw';
               calls := [CallGetNCC (to_unsigned32 volume) pose];
               written := [x08] ++ [byte_of_Z (Z.of_nat (length ncc))]
                                ++ encode_doubles ncc |}
    /\ length (encode_doubles ncc) = (8 * length ncc)%nat
    /\ ((length ncc <= 255)%nat ->
        Z_of_byte (byte_of_Z (Z.of_nat (length ncc))) = Z.of_nat (length ncc))
    /\ (Forall is_double ncc ->
        forall k d, ncc !! k = Some d ->
          read_double (encode_doubles ncc) (8 * Z.of_nat k) = Ok d)
    /\ (forall volumeID xyzpr (m : Mock.AutoscoperMockMainWindow),
          fst (Mock.getNCC volumeID xyzpr m) = [binary64_of_Q 5 10]).
Proof.
  intros Hmin. cbv [min_payload] in Hmin.
  assert (Hlen : Z.of_nat (length (x08 :: payload))
                 = 1 + Z.of_nat (length payload)) by (simpl length; lia).
  destruct (read_pose (x08 :: payload) 5) as [pose|f] eqn:Hp;
    [|apply read_pose_Fault in Hp; lia].
  destruct (read_qint32 (x08 :: payload) 1) as [volume|f] eqn:Hv;
    [|apply read_qint32_Fault in Hv; lia].
  destruct (getNCC (to_unsigned32 volume) pose mw) as [ncc mw'] eqn:Hncc.
  exists volume, pose, ncc, mw'.
  split; [reflexivity|]. split; [reflexivity|]. split; [exact Hncc|].
  split.
  - unfold handleMessage. rewrite read_uchar_head.
    change (Z_of_byte x08) with 8. cbv beta iota.
    rewrite Hp, Hv, Hncc. reflexivity.
  - split; [apply encode_doubles_length|]. split.
    + intros Hcount. rewrite Z_of_byte_of_Z. apply Z.mod_small. lia.
    + split; [|reflexivity].
      intros Hall k d Hk.
      rewrite <- (app_nil_r (encode_doubles ncc)).
      apply (read_double_nth ncc [] [] k d _ Hall Hk). simpl. lia.
Qed.

Lemma correlation_reply_layout_witness :
  let payload := encode_qint32 3 ++ encode_doubles [0; 0; 0; 0; 0; 0] in
  min_payload 8 <= Z.of_nat (length payload)
  /\ exists volume pose ncc mw',
       handleMessage Mock.AutoscoperMockMainWindow_ctor (0, 0) (x08 :: payload)
         (Z.of_nat (length (x08 :: payload)))
       = Ok {| window := mw';
               calls := [CallGetNCC (to_unsigned32 volume) pose];
               written := [x08] ++ [byte_of_Z (Z.of_nat (length ncc))]
                                ++ encode_doubles ncc |}.
Proof.
  intros payload.
  assert (Hmin : min_payload 8 <= Z.of_nat (length payload))
    by (vm_compute; discriminate).
  split; [exact Hmin|].
  destruct (correlation_reply_layout Mock.AutoscoperMockMainWindow_ctor (0, 0)
              payload Hmin)
    as (volume & pose & ncc & mw' & _ & _ & _ & Hh & _).
  exists volume, pose, ncc, mw'. exact Hh.
Defined.

(** ** Images *)


(** C8. The opcode-10 request for volume 0, camera 0 and the zero pose, when
    the locals [width] and [height] happen to hold 4 and 4: the reply is byte
    10, the two sizes and sixteen pixels, but the pixels are 255 on the
    three-by-three block of indices 0 to 2 and on the last pixel, not on two
    quadrants of two by two; and the sizes are the values [getImageData]
    was handed, which the mock never assigns. *)
Theorem get_image_reply_4x4 :
  let request := get_image_request 0 0 [0; 0; 0; 0; 0; 0] in
  exists h,
    handleMessage Mock.AutoscoperMockMainWindow_ctor (4, 4) request
      (Z.of_nat (length request)) = Ok h
    /\ written h
       = [x0a; x04; x00; x00; x00; x04; x00; x00; x00]
         ++ [xff; xff; xff; x00;
             xff; xff; xff; x00;
             xff; xff; xff; x00;
             x00; x00; x00; xff]
    /\ quadrant_pattern 4 4
       = [xff; xff; x00; x00;
          xff; xff; x00; x00;
          x00; x00; xff; xff;
          x00; x00; xff; xff]
    /\ written h
       <> [x0a; x04; x00; x00; x00; x04; x00; x00; x00] ++ quadrant_pattern 4 4
    /\ (forall volumeID camera xyzpr width height m,
          snd (fst (fst (Mock.getImageData volumeID camera xyzpr width height m)))
            = width
          /\ snd (fst (Mock.getImageData volumeID camera xyzpr width height m))
            = height)
    /\ handleMessage Mock.AutoscoperMockMainWindow_ctor (0, 0) request
         (Z.of_nat (length request))
       = Ok {| window := Mock.AutoscoperMockMainWindow_ctor;
               calls := [CallGetImageData 0 0 [0; 0; 0; 0; 0; 0] 0 0];
               written := [x0a; x00; x00; x00; x00; x00; x00; x00; x00] |}.
Proof.
  intros request. eexists. split; [vm_compute; reflexivity|].
  split; [reflexivity|]. split; [reflexivity|].
  split; [vm_compute; discriminate|].
  split; [intros; split; reflexivity|].
  vm_compute. reflexivity.
Qed.

(** ** The life of a connection *)

Section Lifecycle.

Context {W : Type} `{CommandSurface W}.

Lemma replies_to_snoc_other (c c' : nat) (reply : list byte)
    (log : list (nat * list byte)) :
  c' <> c ->
  map snd (filter (λ entry : nat * list byte, entry.1 = c) (log ++ [(c', reply)]))
  = map snd (filter (λ entry : nat * list byte, entry.1 = c) log).
Proof.
  intros Hne. rewrite filter_app, filter_cons.
  destruct (decide ((c', reply).1 = c)) as [Heq|_]; [simpl in Heq; congruence|].
  rewrite filter_nil, app_nil_r. reflexivity.
Qed.

(** [reading] leaves [clientConnections] alone. *)
Lemma fire_ReadyRead_clientConnections (srv srv' : Server W) (c : nat)
    (chunk : list byte) (uninit : Z * Z) :
  fire srv (ReadyRead c chunk uninit) = Ok srv' ->
  clientConnections (socket srv') = clientConnections (socket srv).
Proof.
  unfold fire, reading. destruct (objects srv !! c); [|discriminate].
  destruct (objects (receive c chunk srv) !! c); [|discriminate].
  destruct (handleMessage _ _ _ _); [|discriminate].
  intros [= <-]. reflexivity.
Qed.

(** One event in a state where the object [c] was given out and is gone. *)
Lemma fire_dead (srv srv' : Server W) (ev : event) (c : nat) :
  server_inv srv ->
  (c < next_object srv)%nat -> objects srv !! c = None ->
  fire srv ev = Ok srv' ->
  (c < next_object srv')%nat
  /\ objects srv' !! c = None
  /\ replies_to c srv' = replies_to c srv
  /\ ev <> Disconnected c
  /\ (forall chunk uninit, ev <> ReadyRead c chunk uninit).
Proof.
  intros (Hfresh & Hlive & Hempty) Hlt Hdead Hfire.
  destruct ev as [|c' chunk uninit|c'].
  - injection Hfire as <-. simpl. repeat split; try discriminate; [lia|].
    rewrite lookup_insert_ne by lia. exact Hdead.
  - destruct (decide (c' = c)) as [->|Hne].
    { simpl in Hfire. rewrite Hdead in Hfire. discriminate. }
    destruct (objects srv !! c') as [buffered|] eqn:Hc';
      [|simpl in Hfire; rewrite Hc' in Hfire; discriminate].
    pose proof (Hempty c' buffered Hc') as ->.
    rewrite (fire_ReadyRead srv c' chunk uninit Hc') in Hfire.
    destruct (handleMessage _ _ _ _) as [h|f]; [|discriminate].
    injection Hfire as <-. unfold replies_to. simpl.
    repeat split; try congruence.
    apply replies_to_snoc_other. exact Hne.
  - destruct (decide (c' = c)) as [->|Hne].
    { simpl in Hfire. rewrite Hdead in Hfire. discriminate. }
    simpl in Hfire. destruct (objects srv !! c'); [|discriminate].
    injection Hfire as <-. unfold replies_to. simpl.
    repeat split; try congruence.
    rewrite lookup_delete_ne by congruence. exact Hdead.
Qed.

(** A deleted [QTcpSocket] stays out of the event loop for good. *)
Lemma run_dead (evs : list event) :
  forall (srv srv' : Server W) (c : nat),
  server_inv srv ->
  (c < next_object srv)%nat -> objects srv !! c = None ->
  run srv evs = Ok srv' ->
  objects srv' !! c = None
  /\ replies_to c srv' = replies_to c srv
  /\ (Disconnected c ∉ evs)
  /\ (forall chunk uninit, ReadyRead c chunk uninit ∉ evs).
Proof.
  induction evs as [|ev evs IH]; intros srv srv' c Hinv Hlt Hdead Hrun.
  - injection Hrun as <-. repeat split; auto; intros; apply not_elem_of_nil.
  - simpl in Hrun. destruct (fire srv ev) as [srv1|f] eqn:Hfire; [|discriminate].
    destruct (fire_dead srv srv1 ev c Hinv Hlt Hdead Hfire)
      as (Hlt1 & Hdead1 & Hlog1 & Hev1 & Hev2).
    destruct (IH srv1 srv' c (fire_inv _ _ _ Hinv Hfire) Hlt1 Hdead1 Hrun)
      as (Hdead' & Hlog' & Hno1 & Hno2).
    repeat split.
    + exact Hdead'.
    + congruence.
    + intros Hin. apply elem_of_cons in Hin as [Heq|Hin]; [congruence|auto].
    + intros chunk uninit Hin.
      apply elem_of_cons in Hin as [Heq|Hin];
        [exact (Hev2 chunk uninit (eq_sym Heq)) | exact (Hno2 chunk uninit Hin)].
Qed.

(** What [deleteConnection] does to the connection that sent the signal. *)
Lemma fire_Disconnected (srv srv' : Server W) (c : nat) :
  server_inv srv ->
  fire srv (Disconnected c) = Ok srv' ->
  is_Some (objects srv !! c)
  /\ (c < next_object srv')%nat
  /\ objects srv' !! c = None
  /\ (c ∉ clientConnections (socket srv'))
  /\ replies_to c srv' = replies_to c srv.
Proof.
  intros (Hfresh & Hlive & Hempty) Hfire. simpl in Hfire.
  destruct (objects srv !! c) as [buffered|] eqn:Hc; [|discriminate].
  injection Hfire as <-. simpl. repeat split.
  - eauto.
  - apply Hfresh. rewrite Hc. eauto.
  - apply lookup_delete_eq.
  - intros Hin. apply list_elem_of_filter in Hin as [Hne _]. congruence.
Qed.

End Lifecycle.

(** C9. In every run of the server from its construction, once the
    [disconnected] signal of a connection is handled the connection is out
    of [clientConnections] and its object is gone, at once and in every
    later state; nothing is written to it afterwards; its [disconnected]
    signal is handled at no other point of the run, and it delivers no more
    bytes.  [reading] never changes [clientConnections]: only
    [createNewConnection] and [deleteConnection] assign it. *)
Theorem disconnect_closes_connection {W : Type} `{CommandSurface W}
    (mw : W) (before after : list event) (c : nat) (final : Server W) :
  run (Socket_ctor mw) (before ++ Disconnected c :: after) = Ok final ->
  exists srv0 srv1,
    run (Socket_ctor mw) before = Ok srv0
    /\ is_Some (objects srv0 !! c)
    /\ fire srv0 (Disconnected c) = Ok srv1
    /\ run srv1 after = Ok final
    /\ (c ∉ clientConnections (socket srv1))
    /\ objects srv1 !! c = None
    /\ (c ∉ clientConnections (socket final))
    /\ objects final !! c = None
    /\ replies_to c final = replies_to c srv0
    /\ (Disconnected c ∉ before)
    /\ (Disconnected c ∉ after)
    /\ (forall chunk uninit, ReadyRead c chunk uninit ∉ after)
    /\ (forall (srv srv' : Server W) c' chunk uninit,
          fire srv (ReadyRead c' chunk uninit) = Ok srv' ->
          clientConnections (socket srv') = clientConnections (socket srv)).
Proof.
  intros Hrun. rewrite run_app in Hrun.
  destruct (run (Socket_ctor mw) before) as [srv0|f] eqn:Hbefore; [|discriminate].
  change (run srv0 (Disconnected c :: after))
    with (srv1 <- fire srv0 (Disconnected c) ;; run srv1 after) in Hrun.
  destruct (fire srv0 (Disconnected c)) as [srv1|f] eqn:Hfire; [|discriminate].
  pose proof (run_inv _ _ _ (Socket_ctor_inv mw) Hbefore) as Hinv0.
  pose proof (fire_inv _ _ _ Hinv0 Hfire) as Hinv1.
  pose proof (run_inv _ _ _ Hinv1 Hrun) as Hinv'.
  destruct (fire_Disconnected srv0 srv1 c Hinv0 Hfire)
    as (Halive & Hlt1 & Hdead1 & Hout1 & Hlog1).
  destruct (run_dead after srv1 final c Hinv1 Hlt1 Hdead1 Hrun)
    as (Hdead' & Hlog' & Hno1 & Hno2).
  exists srv0, srv1.
  repeat match goal with |- _ /\ _ => split end;
    try reflexivity; try assumption.
  - destruct Hinv' as (_ & Hlive' & _). intros Hin.
    destruct (Hlive' c Hin) as [x Hx]. congruence.
  - congruence.
  - intros Hin. apply list_elem_of_split in Hin as (p1 & p2 & ->).
    rewrite run_app in Hbefore.
    destruct (run (Socket_ctor mw) p1) as [s1|f] eqn:Hp1; [|discriminate].
    change (run s1 (Disconnected c :: p2))
      with (s2 <- fire s1 (Disconnected c) ;; run s2 p2) in Hbefore.
    destruct (fire s1 (Disconnected c)) as [s2|f] eqn:Hf1; [|discriminate].
    pose proof (run_inv _ _ _ (Socket_ctor_inv mw) Hp1) as Hinvs1.
    destruct (fire_Disconnected s1 s2 c Hinvs1 Hf1) as (_ & Hlt2 & Hdead2 & _).
    destruct (run_dead p2 s2 srv0 c (fire_inv _ _ _ Hinvs1 Hf1) Hlt2 Hdead2
                Hbefore) as (Hdead0 & _).
    destruct Halive as [x Hx]. congruence.
  - intros srv srv' c' chunk uninit Hf.
    exact (fire_ReadyRead_clientConnections srv srv' c' chunk uninit Hf).
Qed.

Lemma disconnect_closes_connection_witness :
  let mw := Mock.AutoscoperMockMainWindow_ctor in
  let before := [NewConnection; ReadyRead 0%nat [x0c] (0, 0)] in
  let after := [NewConnection; ReadyRead 1%nat [x0c] (0, 0)] in
  let final :=
    {| socket := {| clientConnections := [1%nat]; m_mainwindow := mw |};
       objects := <[1%nat := []]> ∅;
       next_object := 2%nat;
       sent := [(0%nat, [x0c]); (1%nat, [x0c])] |} in
  run (Socket_ctor mw) (before ++ Disconnected 0%nat :: after) = Ok final
  /\ (0%nat ∉ clientConnections (socket final))
  /\ (Disconnected 0%nat ∉ after).
Proof.
  intros mw before after final.
  assert (Hrun : run (Socket_ctor mw) (before ++ Disconnected 0%nat :: after)
                 = Ok final) by (vm_compute; reflexivity).
  split; [exact Hrun|].
  destruct (disconnect_closes_connection mw before after 0%nat final Hrun)
    as (srv0 & srv1 & _ & _ & _ & _ & _ & _ & Hout & _ & _ & _ & Honce & _).
  split; [exact Hout | exact Honce].
Defined.

(** ** The pose of the mock *)

(** Through the dispatcher too: a message either leaves the pose of the
    mock as it was or is a [setPose] of six doubles. *)
Lemma handleMessage_mock_pose (w : Mock.AutoscoperMockMainWindow)
    (uninit : Z * Z) (data : list byte) (len : Z)
    (h : handled Mock.AutoscoperMockMainWindow) :
  handleMessage w uninit data len = Ok h ->
  Mock.Pose (window h) = Mock.Pose w
  \/ (exists volume frame,
        calls h = [CallSetPose (Mock.Pose (window h)) volume frame]
        /\ length (Mock.Pose (window h)) = 6%nat).
Proof.
  unfold handleMessage.
  destruct (read_uchar data 0) as [message_type|f]; [|discriminate].
  destruct uninit as [width height].
  destruct message_type as [|p|p];
    [| destruct p as [[[[p|p|]|[p|p|]|]|[[p|p|]|[p|p|]|]|]
                     |[[[p|p|]|[p|p|]|]|[[p|p|]|[p|p|]|]|]|] |];
    cbn [getPose getNCC getImageData setPose mock_surface Mock.getPose
         Mock.getNCC Mock.getImageData];
    destruct_reads; try discriminate; intros [= <-];
    try (left; reflexivity).
  right. eexists _, _. split; [reflexivity|]. simpl. tauto.
Qed.

(** C10. The mock keeps one pose, whatever the volume and the frame:
    [getPose] returns it for every pair and changes nothing, [setPose] on any
    pair replaces it for every later [getPose], every other operation leaves
    it as it is, and the constructor stores six doubles. *)
Theorem mock_pose_is_one_value (w : Mock.AutoscoperMockMainWindow) :
  (forall v1 f1 v2 f2, Mock.getPose v1 f1 w = Mock.getPose v2 f2 w)
  /\ (forall v f, Mock.getPose v f w = (Mock.Pose w, w))
  /\ (forall p v f v' f',
        fst (Mock.getPose v' f' (Mock.setPose p v f w)) = p)
  /\ (forall frame, Mock.Pose (Mock.setFrame frame w) = Mock.Pose w)
  /\ (forall filename, Mock.Pose (Mock.openTrial filename w) = Mock.Pose w)
  /\ (forall filename b1 b2 b3 b4 b5 b6 volume,
        Mock.Pose (Mock.load_tracking_results filename b1 b2 b3 b4 b5 b6 volume w)
        = Mock.Pose w)
  /\ (forall filename b1 b2 b3 b4 b5 b6 volume,
        Mock.Pose (Mock.save_tracking_results filename b1 b2 b3 b4 b5 b6 volume w)
        = Mock.Pose w)
  /\ (forall camera filename,
        Mock.Pose (Mock.loadFilterSettings camera filename w) = Mock.Pose w)
  /\ (forall threshold, Mock.Pose (Mock.setBackground threshold w) = Mock.Pose w)
  /\ (forall volumeID xyzpr,
        Mock.Pose (snd (Mock.getNCC volumeID xyzpr w)) = Mock.Pose w)
  /\ Mock.Pose (Mock.saveFullDRR w) = Mock.Pose w
  /\ (forall volumeID camera xyzpr width height,
        Mock.Pose (snd (Mock.getImageData volumeID camera xyzpr width height w))
        = Mock.Pose w)
  /\ (forall volumeID frame dframe repeats opt_method max_iter min_limit
             max_limit cf_model stall_iter,
        Mock.Pose (Mock.optimizeFrame volumeID frame dframe repeats opt_method
                     max_iter min_limit max_limit cf_model stall_iter w)
        = Mock.Pose w)
  /\ length (Mock.Pose Mock.AutoscoperMockMainWindow_ctor) = 6%nat.
Proof.
  repeat match goal with |- _ /\ _ => split end; intros; reflexivity.
Qed.

(** A request cut in two by the transport is handled as two messages: the
    open-trial request [01 61 62 63] arriving as [01 61] and [62 63] opens
    the trial "a" and then meets the unrecognized opcode 0x62. *)
Example split_request_is_two_messages :
  let srv := createNewConnection (Socket_ctor Mock.AutoscoperMockMainWindow_ctor) in
  (sent <$> (match run srv [ReadyRead 0%nat [x01; x61; x62; x63] (0, 0)] with
             | Ok s => Some s | Fault _ => None end))
    = Some [(0%nat, [x01])]
  /\ (sent <$> (match run srv [ReadyRead 0%nat [x01; x61] (0, 0);
                               ReadyRead 0%nat [x62; x63] (0, 0)] with
                | Ok s => Some s | Fault _ => None end))
    = Some [(0%nat, [x01]); (0%nat, [x00])].
Proof. split; vm_compute; reflexivity. Qed.

(** * Further properties of the dispatcher *)

(** ** Fields and conversions *)

Lemma read_bytes_app_l (data extra : list byte) (off n : Z) :
  0 <= off -> 0 <= n -> off + n <= Z.of_nat (length data) ->
  read_bytes (data ++ extra) off n = read_bytes data off n.
Proof.
  intros Hoff Hn Hfit. unfold read_bytes. rewrite length_app, Nat2Z.inj_add.
  replace (off + n <=? Z.of_nat (length data) + Z.of_nat (length extra))
    with true by (symmetry; apply Z.leb_le; lia).
  replace (off + n <=? Z.of_nat (length data))
    with true by (symmetry; apply Z.leb_le; lia).
  destruct ((0 <=? off) && (0 <=? n)); [simpl|reflexivity].
  rewrite drop_app_le by lia.
  rewrite take_app_le by (rewrite length_drop; lia).
  reflexivity.
Qed.

Lemma read_qint32_app_l (data extra : list byte) (off : Z) :
  0 <= off -> off + 4 <= Z.of_nat (length data) ->
  read_qint32 (data ++ extra) off = read_qint32 data off.
Proof.
  intros. unfold read_qint32. rewrite read_bytes_app_l by lia. reflexivity.
Qed.

Lemma read_double_app_l (data extra : list byte) (off : Z) :
  0 <= off -> off + 8 <= Z.of_nat (length data) ->
  read_double (data ++ extra) off = read_double data off.
Proof.
  intros. unfold read_double. rewrite read_bytes_app_l by lia. reflexivity.
Qed.

Lemma read_pose_app_l (data extra : list byte) (off : Z) :
  0 <= off -> off + 48 <= Z.of_nat (length data) ->
  read_pose (data ++ extra) off = read_pose data off.
Proof.
  intros. unfold read_pose. rewrite !read_double_app_l by lia. reflexivity.
Qed.

Lemma to_signed32_range (u : Z) :
  0 <= u < 2 ^ 32 -> - 2 ^ 31 <= to_signed32 u < 2 ^ 31.
Proof.
  intros Hu. unfold to_signed32. destruct (u <? 2 ^ 31) eqn:Hlt.
  - apply Z.ltb_lt in Hlt. lia.
  - apply Z.ltb_ge in Hlt. lia.
Qed.

Lemma signed_of_mod (v : Z) :
  - 2 ^ 31 <= v < 2 ^ 31 -> to_signed32 (v mod 2 ^ 32) = v.
Proof.
  intros Hv. unfold to_signed32.
  destruct (Z.neg_nonneg_cases v) as [Hneg|Hpos].
  - replace (v mod 2 ^ 32) with (v + 2 ^ 32).
    + replace (v + 2 ^ 32 <? 2 ^ 31) with false
        by (symmetry; apply Z.ltb_ge; lia). lia.
    + apply Z.mod_unique with (q := -1); lia.
  - rewrite Z.mod_small by lia.
    replace (v <? 2 ^ 31) with true by (symmetry; apply Z.ltb_lt; lia).
    reflexivity.
Qed.

Lemma read_qint32_range (data : list byte) (off v : Z) :
  read_qint32 data off = Ok v -> - 2 ^ 31 <= v < 2 ^ 31.
Proof.
  unfold read_qint32. destruct (read_bytes data off 4) as [bs|f] eqn:Hr;
    [|discriminate].
  intros [= <-]. apply to_signed32_range.
  assert (Hlen : length bs = 4%nat).
  { pose proof (read_bytes_Ok _ _ _ _ Hr) as (H0 & _ & Hfit).
    unfold read_bytes in Hr.
    destruct ((0 <=? off) && (0 <=? 4)
              && (off + 4 <=? Z.of_nat (length data))); [|discriminate].
    injection Hr as <-. rewrite length_take, length_drop. lia. }
  pose proof (le_decode_range bs) as Hd. rewrite Hlen in Hd. exact Hd.
Qed.

Lemma to_unsigned32_of_signed (v : Z) :
  - 2 ^ 31 <= v < 2 ^ 31 ->
  to_unsigned32 v = (if v <? 0 then v + 2 ^ 32 else v)
  /\ 0 <= to_unsigned32 v < 2 ^ 32.
Proof.
  intros Hv. unfold to_unsigned32. split; [|apply Z.mod_pos_bound; lia].
  destruct (v <? 0) eqn:Hneg.
  - apply Z.ltb_lt in Hneg. symmetry. apply Z.mod_unique with (q := -1); lia.
  - apply Z.ltb_ge in Hneg. apply Z.mod_small. lia.
Qed.

(** [c_str] keeps the bytes before the first NUL. *)
Lemma c_str_no_NUL (s : list byte) : x00 ∉ c_str s.
Proof.
  induction s as [|b s IH]; simpl.
  - apply not_elem_of_nil.
  - destruct (Byte.eqb b x00) eqn:Hb; [apply not_elem_of_nil|].
    intros Hin. apply elem_of_cons in Hin as [Heq|Hin]; [|auto].
    subst b. vm_compute in Hb. discriminate.
Qed.

Lemma c_str_app_NUL (s rest : list byte) :
  x00 ∉ s -> c_str (s ++ x00 :: rest) = s /\ c_str s = s.
Proof.
  induction s as [|b s IH]; intros Hs; simpl.
  - split; reflexivity.
  - destruct (Byte.eqb b x00) eqn:Hb.
    + apply Byte.byte_dec_bl in Hb. subst b. exfalso. apply Hs. left.
    + assert (Hs' : x00 ∉ s) by (intros Hin; apply Hs; right; exact Hin).
      destruct (IH Hs') as [H1 H2]. rewrite H1, H2. split; reflexivity.
Qed.

Lemma std_string_rest (pre rest : list byte) (off : Z) :
  off = Z.of_nat (length pre) ->
  std_string (pre ++ rest) off (Z.of_nat (length (pre ++ rest)) - off) = Ok rest.
Proof.
  intros ->. unfold std_string. rewrite length_app, Nat2Z.inj_add.
  replace (Z.of_nat (length pre) + Z.of_nat (length rest)
             - Z.of_nat (length pre) <? 0) with false
    by (symmetry; apply Z.ltb_ge; lia).
  rewrite <- (app_nil_r rest) at 1.
  apply read_bytes_at; [reflexivity | lia].
Qed.

(** ** Edge and argument behaviour of [handleMessage] *)

(** X1. No guard skips a read that finds no byte available: [reading] hands
    the empty buffer to [handleMessage], whose first statement reads
    [data[0]] outside the zero-length allocation.  That is undefined
    behaviour in the source (what is answered then depends on the byte
    found there) and the fault [OutOfBounds] here; no message of the
    specification is framed from an empty read. *)
Theorem empty_read_is_dispatched {W : Type} `{CommandSurface W}
    (srv : Server W) (c : nat) (uninit : Z * Z) :
  objects srv !! c = Some [] ->
  frame [] = None
  /\ read_uchar [] 0 = Fault OutOfBounds
  /\ (forall len,
        handleMessage (m_mainwindow (socket srv)) uninit [] len
        = Fault OutOfBounds)
  /\ reading (Some c) uninit srv = Fault OutOfBounds
  /\ fire srv (ReadyRead c [] uninit) = Fault OutOfBounds.
Proof.
  intros Hc. split; [reflexivity|]. split; [reflexivity|].
  split; [intros len; reflexivity|]. split.
  - unfold reading. rewrite Hc. reflexivity.
  - rewrite (fire_ReadyRead srv c [] uninit Hc). reflexivity.
Qed.

Lemma empty_read_is_dispatched_witness :
  let srv := createNewConnection (Socket_ctor Mock.AutoscoperMockMainWindow_ctor) in
  objects srv !! 0%nat = Some []
  /\ fire srv (ReadyRead 0%nat [] (0, 0)) = Fault OutOfBounds.
Proof.
  intros srv.
  assert (Hc : objects srv !! 0%nat = Some []) by reflexivity.
  split; [exact Hc|].
  destruct (empty_read_is_dispatched srv 0%nat (0, 0) Hc)
    as (_ & _ & _ & _ & Hfire).
  exact Hfire.
Defined.

(** X2. Opcode 1 never faults: the whole payload is taken as the file name,
    and [openTrial] receives it cut at its first NUL byte (all of it when it
    holds none). *)
Theorem open_trial_filename {W : Type} `{CommandSurface W}
    (mw : W) (uninit : Z * Z) (name rest : list byte) :
  x00 ∉ name ->
  handleMessage mw uninit (x01 :: name)
    (Z.of_nat (length (x01 :: name)))
  = Ok {| window := openTrial name mw;
          calls := [CallOpenTrial name];
          written := [x01] |}
  /\ handleMessage mw uninit (x01 :: name ++ x00 :: rest)
       (Z.of_nat (length (x01 :: name ++ x00 :: rest)))
     = Ok {| window := openTrial name mw;
             calls := [CallOpenTrial name];
             written := [x01] |}.
Proof.
  intros Hname.
  destruct (c_str_app_NUL name rest Hname) as [Hcut Hall].
  unfold handleMessage. rewrite !read_uchar_head.
  change (Z_of_byte x01) with 1. cbv beta iota.
  change (x01 :: name) with ([x01] ++ name).
  change (x01 :: name ++ x00 :: rest) with ([x01] ++ (name ++ x00 :: rest)).
  rewrite !std_string_rest by reflexivity.
  rewrite Hcut, Hall. split; reflexivity.
Qed.

Lemma open_trial_filename_witness :
  (x00 ∉ [x61; x2e; x63])
  /\ handleMessage Mock.AutoscoperMockMainWindow_ctor (0, 0)
       (x01 :: [x61; x2e; x63] ++ x00 :: [x7a])
       (Z.of_nat (length (x01 :: [x61; x2e; x63] ++ x00 :: [x7a])))
     = Ok {| window := openTrial [x61; x2e; x63]
                         Mock.AutoscoperMockMainWindow_ctor;
             calls := [CallOpenTrial [x61; x2e; x63]];
             written := [x01] |}.
Proof.
  assert (Hname : x00 ∉ [x61; x2e; x63]).
  { intros Hin. repeat (apply elem_of_cons in Hin as [Hin|Hin];
                        [discriminate|]). inversion Hin. }
  split; [exact Hname|].
  exact (proj2 (open_trial_filename Mock.AutoscoperMockMainWindow_ctor (0, 0)
                  [x61; x2e; x63] [x7a] Hname)).
Defined.

(** X3. Opcodes 2, 3 and 4: the first four payload bytes are the signed
    index, every byte after them is the file name (cut at its first NUL, and
    empty when there is none), and the six flags of the tracking calls are
    always true, true, true, false, false, false. *)
Theorem string_request_arguments {W : Type} `{CommandSurface W}
    (mw : W) (uninit : Z * Z) (index_bytes name : list byte) :
  length index_bytes = 4%nat ->
  let index := to_signed32 (le_decode index_bytes) in
  - 2 ^ 31 <= index < 2 ^ 31
  /\ handleMessage mw uninit (x02 :: index_bytes ++ name)
       (Z.of_nat (length (x02 :: index_bytes ++ name)))
     = Ok {| window := load_tracking_results (c_str name)
                         true true true false false false index mw;
             calls := [CallLoadTrackingResults (c_str name)
                         true true true false false false index];
             written := [x02] |}
  /\ handleMessage mw uninit (x03 :: index_bytes ++ name)
       (Z.of_nat (length (x03 :: index_bytes ++ name)))
     = Ok {| window := save_tracking_results (c_str name)
                         true true true false false false index mw;
             calls := [CallSaveTrackingResults (c_str name)
                         true true true false false false index];
             written := [x03] |}
  /\ handleMessage mw uninit (x04 :: index_bytes ++ name)
       (Z.of_nat (length (x04 :: index_bytes ++ name)))
     = Ok {| window := loadFilterSettings index (c_str name) mw;
             calls := [CallLoadFilterSettings index (c_str name)];
             written := [x04] |}.
Proof.
  intros Hlen index.
  assert (Hstr : forall b,
            std_string (b :: index_bytes ++ name) 5
              (Z.of_nat (length (b :: index_bytes ++ name)) - 5) = Ok name).
  { intros b. change (b :: index_bytes ++ name) with ((b :: index_bytes) ++ name).
    apply std_string_rest. simpl length. lia. }
  assert (Hidx : forall b,
            read_qint32 (b :: index_bytes ++ name) 1 = Ok index).
  { intros b. unfold read_qint32.
    change (b :: index_bytes ++ name) with ([b] ++ index_bytes ++ name).
    rewrite (read_bytes_at [b] index_bytes name 1 4) by (simpl; lia).
    reflexivity. }
  split.
  - apply (read_qint32_range _ _ _ (Hidx x02)).
  - unfold handleMessage. rewrite !read_uchar_head.
    change (Z_of_byte x02) with 2. change (Z_of_byte x03) with 3.
    change (Z_of_byte x04) with 4. cbv beta iota.
    rewrite !Hstr, !Hidx. repeat split.
Qed.

Lemma string_request_arguments_witness :
  length [xfe; xff; xff; xff] = 4%nat
  /\ handleMessage Mock.AutoscoperMockMainWindow_ctor (0, 0)
       (x02 :: [xfe; xff; xff; xff] ++ [])
       (Z.of_nat (length (x02 :: [xfe; xff; xff; xff] ++ [])))
     = Ok {| window := Mock.AutoscoperMockMainWindow_ctor;
             calls := [CallLoadTrackingResults []
                         true true true false false false (-2)];
             written := [x02] |}.
Proof.
  assert (Hlen : length [xfe; xff; xff; xff] = 4%nat) by reflexivity.
  split; [exact Hlen|].
  exact (proj1 (proj2 (string_request_arguments
                         Mock.AutoscoperMockMainWindow_ctor (0, 0)
                         [xfe; xff; xff; xff] [] Hlen))).
Defined.

(** X4. An opcode-5 request sets the frame of the mock to the signed 32-bit
    value it carries, negative values included, whatever follows the four
    bytes; the pose is untouched. *)
Theorem set_frame_request_sets_frame (w : Mock.AutoscoperMockMainWindow)
    (uninit : Z * Z) (frame : Z) (extra : list byte) :
  - 2 ^ 31 <= frame < 2 ^ 31 ->
  handleMessage w uninit ([x05] ++ encode_qint32 frame ++ extra)
    (Z.of_nat (length ([x05] ++ encode_qint32 frame ++ extra)))
  = Ok {| window := {| Mock.Frame := frame; Mock.Pose := Mock.Pose w |};
          calls := [CallSetFrame frame];
          written := [x05] |}.
Proof.
  intros Hframe. unfold handleMessage.
  change ([x05] ++ encode_qint32 frame ++ extra)
    with (x05 :: (encode_qint32 frame ++ extra)) at 1.
  rewrite read_uchar_head. change (Z_of_byte x05) with 5. cbv beta iota.
  rewrite (read_qint32_encoded [x05] extra frame 1) by reflexivity.
  rewrite signed_of_mod by exact Hframe. reflexivity.
Qed.

Lemma set_frame_request_sets_frame_witness :
  - 2 ^ 31 <= -7 < 2 ^ 31
  /\ handleMessage Mock.AutoscoperMockMainWindow_ctor (0, 0)
       ([x05] ++ encode_qint32 (-7) ++ [x2a])
       (Z.of_nat (length ([x05] ++ encode_qint32 (-7) ++ [x2a])))
     = Ok {| window := {| Mock.Frame := -7;
                          Mock.Pose :=
                            Mock.Pose Mock.AutoscoperMockMainWindow_ctor |};
             calls := [CallSetFrame (-7)];
             written := [x05] |}.
Proof.
  assert (Hframe : - 2 ^ 31 <= -7 < 2 ^ 31) by lia.
  split; [exact Hframe|].
  exact (set_frame_request_sets_frame Mock.AutoscoperMockMainWindow_ctor
           (0, 0) (-7) [x2a] Hframe).
Defined.

(** X5. For opcodes 5 to 12 the bytes after the fixed fields are ignored: a
    request with anything appended is handled exactly as the request
    itself. *)
Theorem trailing_bytes_ignored {W : Type} `{CommandSurface W}
    (mw : W) (uninit : Z * Z) (b : byte) (payload extra : list byte) :
  5 <= Z_of_byte b <= 12 ->
  min_payload (Z_of_byte b) <= Z.of_nat (length payload) ->
  handleMessage mw uninit (b :: payload ++ extra)
    (Z.of_nat (length (b :: payload ++ extra)))
  = handleMessage mw uninit (b :: payload)
      (Z.of_nat (length (b :: payload))).
Proof.
  intros Hop Hmin.
  assert (Hcases : In (Z_of_byte b) [5; 6; 7; 8; 9; 10; 11; 12])
    by (simpl; lia).
  clear Hop. unfold handleMessage. rewrite !read_uchar_head.
  simpl in Hcases.
  repeat (destruct Hcases as [Hop|Hcases]; [symmetry in Hop|]);
    [..|contradiction];
    know_opcode b Hop; rewrite Hop in Hmin; cbv [min_payload] in Hmin;
    rewrite Hop; cbv beta iota;
    try match goal with
    | |- context [?x :: payload ++ extra] =>
        change (x :: payload ++ extra) with ((x :: payload) ++ extra)
    end;
    repeat (rewrite read_qint32_app_l by (simpl length; lia));
    repeat (rewrite read_double_app_l by (simpl length; lia));
    repeat (rewrite read_pose_app_l by (simpl length; lia));
    reflexivity.
Qed.

Lemma trailing_bytes_ignored_witness :
  5 <= Z_of_byte x09 <= 12
  /\ min_payload (Z_of_byte x09)
     <= Z.of_nat (length [x00; x00; x00; x00; x00; x00; xf0; x3f])
  /\ handleMessage Mock.AutoscoperMockMainWindow_ctor (0, 0)
       (x09 :: [x00; x00; x00; x00; x00; x00; xf0; x3f] ++ [x01; x02])
       (Z.of_nat (length (x09 :: [x00; x00; x00; x00; x00; x00; xf0; x3f]
                                 ++ [x01; x02])))
     = handleMessage Mock.AutoscoperMockMainWindow_ctor (0, 0)
         (x09 :: [x00; x00; x00; x00; x00; x00; xf0; x3f])
         (Z.of_nat (length (x09 :: [x00; x00; x00; x00; x00; x00; xf0; x3f]))).
Proof.
  assert (Hop : 5 <= Z_of_byte x09 <= 12) by (vm_compute; split; discriminate).
  assert (Hmin : min_payload (Z_of_byte x09)
                 <= Z.of_nat (length [x00; x00; x00; x00; x00; x00; xf0; x3f]))
    by (vm_compute; discriminate).
  split; [exact Hop|]. split; [exact Hmin|].
  exact (trailing_bytes_ignored Mock.AutoscoperMockMainWindow_ctor (0, 0) x09
           [x00; x00; x00; x00; x00; x00; xf0; x3f] [x01; x02] Hop Hmin).
Defined.

(** X6. An opcode-6 request with at least eight payload bytes calls [getPose]
    with the volume and the frame converted to unsigned (a negative index
    [v] arrives as [v + 2^32]).  When the vector returned holds at least six
    doubles the reply is byte 6 and the first six of them, 49 bytes; when it
    holds fewer, six doubles are still read from it, past its end. *)
Theorem get_pose_reply_layout {W : Type} `{CommandSurface W}
    (mw : W) (uninit : Z * Z) (payload : list byte) :
  min_payload 6 <= Z.of_nat (length payload) ->
  exists volume frame pose mw',
    read_qint32 (x06 :: payload) 1 = Ok volume
    /\ read_qint32 (x06 :: payload) 5 = Ok frame
    /\ to_unsigned32 volume = (if volume <? 0 then volume + 2 ^ 32 else volume)
    /\ to_unsigned32 frame = (if frame <? 0 then frame + 2 ^ 32 else frame)
    /\ getPose (to_unsigned32 volume) (to_unsigned32 frame) mw = (pose, mw')
    /\ handleMessage mw uninit (x06 :: payload)
         (Z.of_nat (length (x06 :: payload)))
       = (if (6 <=? length pose)%nat
          then Ok {| window := mw';
                     calls := [CallGetPose (to_unsigned32 volume)
                                 (to_unsigned32 frame)];
                     written := [x06] ++ encode_doubles (take 6 pose) |}
          else Fault OutOfBounds)
    /\ ((6 <= length pose)%nat ->
        length ([x06] ++ encode_doubles (take 6 pose)) = 49%nat).
Proof.
  intros Hmin. cbv [min_payload] in Hmin.
  assert (Hlen : Z.of_nat (length (x06 :: payload))
                 = 1 + Z.of_nat (length payload)) by (simpl length; lia).
  destruct (read_qint32 (x06 :: payload) 1) as [volume|f] eqn:Hv;
    [|apply read_qint32_Fault in Hv; lia].
  destruct (read_qint32 (x06 :: payload) 5) as [frame|f] eqn:Hf;
    [|apply read_qint32_Fault in Hf; lia].
  destruct (getPose (to_unsigned32 volume) (to_unsigned32 frame) mw)
    as [pose mw'] eqn:Hpose.
  exists volume, frame, pose, mw'.
  split; [reflexivity|]. split; [reflexivity|].
  split; [apply to_unsigned32_of_signed, (read_qint32_range _ _ _ Hv)|].
  split; [apply to_unsigned32_of_signed, (read_qint32_range _ _ _ Hf)|].
  split; [exact Hpose|]. split.
  - unfold handleMessage. rewrite read_uchar_head.
    change (Z_of_byte x06) with 6. cbv beta iota.
    rewrite Hv, Hf, Hpose. unfold vector_doubles.
    destruct (6 <=? length pose)%nat; reflexivity.
  - intros Hsix. rewrite length_app, encode_doubles_length, length_take.
    simpl length. lia.
Qed.

Lemma get_pose_reply_layout_witness :
  let payload := [xff; xff; xff; xff; x03; x00; x00; x00] in
  min_payload 6 <= Z.of_nat (length payload)
  /\ exists volume frame pose mw',
       read_qint32 (x06 :: payload) 1 = Ok volume
       /\ read_qint32 (x06 :: payload) 5 = Ok frame
       /\ getPose (to_unsigned32 volume) (to_unsigned32 frame)
            Mock.AutoscoperMockMainWindow_ctor = (pose, mw').
Proof.
  intros payload.
  assert (Hmin : min_payload 6 <= Z.of_nat (length payload))
    by (vm_compute; discriminate).
  split; [exact Hmin|].
  destruct (get_pose_reply_layout Mock.AutoscoperMockMainWindow_ctor (0, 0)
              payload Hmin)
    as (volume & frame & pose & mw' & Hv & Hf & _ & _ & Hpose & _).
  exists volume, frame, pose, mw'.
  split; [exact Hv|]. split; [exact Hf | exact Hpose].
Defined.

(** ** The optimization request *)

(** Move the next chunk of a right-nested concatenation into its prefix. *)
Ltac regroup :=
  match goal with
  | |- context [?a ++ ?b ++ ?c] => rewrite (app_assoc a b c)
  end.

Ltac field_offset :=
  rewrite ?length_app, ?encode_qint32_length, ?encode_double_length;
  simpl length; lia.

Lemma optimize_request_fields (volumeID frame repeats max_iter : Z)
    (min_limit max_limit : double) (stall_iter : Z) (extra : list byte) :
  let data := optimize_request volumeID frame repeats max_iter min_limit
                max_limit stall_iter ++ extra in
  is_double min_limit -> is_double max_limit ->
  read_uchar data 0 = Ok 11
  /\ read_qint32 data 1 = Ok (to_signed32 (volumeID mod 2 ^ 32))
  /\ read_qint32 data 5 = Ok (to_signed32 (frame mod 2 ^ 32))
  /\ read_qint32 data 9 = Ok (to_signed32 (repeats mod 2 ^ 32))
  /\ read_qint32 data 13 = Ok (to_signed32 (max_iter mod 2 ^ 32))
  /\ read_double data 17 = Ok min_limit
  /\ read_double data 25 = Ok max_limit
  /\ read_qint32 data 33 = Ok (to_signed32 (stall_iter mod 2 ^ 32)).
Proof.
  intros data Hmin Hmax. subst data. unfold optimize_request.
  rewrite <- !app_assoc.
  split; [apply read_uchar_head|].
  split; [apply read_qint32_encoded; field_offset|].
  split; [regroup; apply read_qint32_encoded; field_offset|].
  split; [do 2 regroup; apply read_qint32_encoded; field_offset|].
  split; [do 3 regroup; apply read_qint32_encoded; field_offset|].
  split; [do 4 regroup; apply read_double_encoded; [field_offset|exact Hmin]|].
  split; [do 5 regroup; apply read_double_encoded; [field_offset|exact Hmax]|].
  do 6 regroup. apply read_qint32_encoded. field_offset.
Qed.

(** X7. The seven fields of an opcode-11 request, packed in the order
    volume, frame, repeats, iterations, lower limit, upper limit, stall
    iterations, reach [optimizeFrame] unchanged, with [dframe] 1 and the
    optimization method and cost model 0; the reply is byte 11. *)
Theorem optimize_request_arguments {W : Type} `{CommandSurface W}
    (mw : W) (uninit : Z * Z) (volumeID frame repeats max_iter : Z)
    (min_limit max_limit : double) (stall_iter : Z) (extra : list byte) :
  - 2 ^ 31 <= volumeID < 2 ^ 31 ->
  - 2 ^ 31 <= frame < 2 ^ 31 ->
  - 2 ^ 31 <= repeats < 2 ^ 31 ->
  0 <= max_iter < 2 ^ 32 ->
  is_double min_limit -> is_double max_limit ->
  0 <= stall_iter < 2 ^ 32 ->
  let data := optimize_request volumeID frame repeats max_iter min_limit
                max_limit stall_iter ++ extra in
  handleMessage mw uninit data (Z.of_nat (length data))
  = Ok {| window := optimizeFrame volumeID frame 1 repeats 0 max_iter
                      min_limit max_limit 0 stall_iter mw;
          calls := [CallOptimizeFrame volumeID frame 1 repeats 0 max_iter
                      min_limit max_limit 0 stall_iter];
          written := [x0b] |}.
Proof.
  intros Hv Hf Hr Hm Hlo Hhi Hs data.
  destruct (optimize_request_fields volumeID frame repeats max_iter min_limit
              max_limit stall_iter extra Hlo Hhi)
    as (H0 & H1 & H5 & H9 & H13 & H17 & H25 & H33).
  fold data in H0, H1, H5, H9, H13, H17, H25, H33.
  unfold handleMessage. rewrite H0. cbv beta iota.
  rewrite H1, H5, H9, H13, H17, H25, H33.
  rewrite !signed_of_mod by assumption.
  rewrite !unsigned_of_signed32_mod.
  rewrite (Z.mod_small max_iter), (Z.mod_small stall_iter) by assumption.
  reflexivity.
Qed.

Lemma optimize_request_arguments_witness :
  let data := optimize_request 1 (-3) 2 1000 (binary64_of_Q 1 10)
                (binary64_of_Q 7 2) 4000000000 ++ [] in
  (- 2 ^ 31 <= 1 < 2 ^ 31) /\ (- 2 ^ 31 <= -3 < 2 ^ 31)
  /\ (- 2 ^ 31 <= 2 < 2 ^ 31) /\ (0 <= 1000 < 2 ^ 32)
  /\ is_double (binary64_of_Q 1 10) /\ is_double (binary64_of_Q 7 2)
  /\ (0 <= 4000000000 < 2 ^ 32)
  /\ handleMessage Mock.AutoscoperMockMainWindow_ctor (0, 0) data
       (Z.of_nat (length data))
     = Ok {| window := Mock.AutoscoperMockMainWindow_ctor;
             calls := [CallOptimizeFrame 1 (-3) 1 2 0 1000
                         (binary64_of_Q 1 10) (binary64_of_Q 7 2) 0
                         4000000000];
             written := [x0b] |}.
Proof.
  intros data.
  assert (Hv : - 2 ^ 31 <= 1 < 2 ^ 31) by lia.
  assert (Hf : - 2 ^ 31 <= -3 < 2 ^ 31) by lia.
  assert (Hr : - 2 ^ 31 <= 2 < 2 ^ 31) by lia.
  assert (Hm : 0 <= 1000 < 2 ^ 32) by lia.
  assert (Hlo : is_double (binary64_of_Q 1 10))
    by (vm_compute; split; [discriminate | reflexivity]).
  assert (Hhi : is_double (binary64_of_Q 7 2))
    by (vm_compute; split; [discriminate | reflexivity]).
  assert (Hs : 0 <= 4000000000 < 2 ^ 32) by lia.
  repeat (split; [assumption|]).
  exact (optimize_request_arguments Mock.AutoscoperMockMainWindow_ctor (0, 0)
           1 (-3) 2 1000 (binary64_of_Q 1 10) (binary64_of_Q 7 2) 4000000000
           [] Hv Hf Hr Hm Hlo Hhi Hs).
Defined.

(** ** Images of the mock *)

Lemma map_lookup {A B : Type} (f : A -> B) (l : list A) (i : nat) :
  map f l !! i = f <$> l !! i.
Proof.
  revert i. induction l as [|x l IH]; intros [|i]; simpl; auto.
Qed.

Lemma concat_uniform_length {A : Type} (ls : list (list A)) (n : nat) :
  Forall (fun l => length l = n) ls ->
  length (concat ls) = (length ls * n)%nat.
Proof.
  induction 1 as [|l ls Hl _ IH]; simpl; [reflexivity|].
  rewrite length_app, IH, Hl. reflexivity.
Qed.

Lemma concat_uniform_lookup {A : Type} (ls : list (list A)) (n : nat) :
  Forall (fun l => length l = n) ls ->
  forall i j l x,
    ls !! i = Some l -> l !! j = Some x ->
    concat ls !! (i * n + j)%nat = Some x.
Proof.
  induction 1 as [|l0 ls Hl0 _ IH]; intros i j l x Hi Hj; [discriminate|].
  destruct i as [|i]; simpl in *.
  - injection Hi as ->. apply lookup_app_l_Some. exact Hj.
  - rewrite lookup_app_r by lia.
    replace (n + i * n + j - length l0)%nat with (i * n + j)%nat by lia.
    eapply IH; eauto.
Qed.

Lemma pixel_value (width height w_idx h_idx : Z) :
  Mock.pixel width height w_idx h_idx
  = if Bool.eqb (width / 2 <? w_idx) (height / 2 <? h_idx) then xff else x00.
Proof.
  unfold Mock.pixel.
  destruct (width / 2 <? w_idx), (height / 2 <? h_idx); reflexivity.
Qed.

Lemma getImageData_shape (volumeID camera : Z) (xyzpr : list double)
    (width height : Z) (w : Mock.AutoscoperMockMainWindow) :
  0 <= width -> 0 <= height ->
  let r := Mock.getImageData volumeID camera xyzpr width height w in
  r.2 = w /\ r.1.2 = height /\ r.1.1.2 = width
  /\ length r.1.1.1 = Z.to_nat (width * height)
  /\ (forall w_idx h_idx,
        0 <= w_idx < width -> 0 <= h_idx < height ->
        r.1.1.1 !! Z.to_nat (w_idx * height + h_idx)
        = Some (if Bool.eqb (width / 2 <? w_idx) (height / 2 <? h_idx)
                then xff else x00)).
Proof.
  intros Hw Hh r. subst r. unfold Mock.getImageData. simpl.
  set (row := fun w_idx =>
                map (fun h_idx => Mock.pixel width height w_idx h_idx)
                    (seqZ 0 height)).
  assert (Hrows : Forall (fun l => length l = Z.to_nat height)
                    (map row (seqZ 0 width))).
  { apply Forall_forall. intros l Hl. apply list_elem_of_In in Hl.
    apply in_map_iff in Hl as (w_idx & <- & _).
    unfold row. rewrite length_map, length_seqZ. reflexivity. }
  repeat split.
  - rewrite (concat_uniform_length _ _ Hrows), length_map, length_seqZ.
    rewrite Z2Nat.inj_mul by lia. reflexivity.
  - intros w_idx h_idx Hwi Hhi.
    replace (Z.to_nat (w_idx * height + h_idx))
      with (Z.to_nat w_idx * Z.to_nat height + Z.to_nat h_idx)%nat
      by (rewrite Z2Nat.inj_add, Z2Nat.inj_mul by lia; reflexivity).
    rewrite <- pixel_value.
    apply (concat_uniform_lookup _ _ Hrows _ _ (row w_idx)).
    + rewrite map_lookup, lookup_seqZ_lt by lia. simpl.
      rewrite Z2Nat.id by lia. reflexivity.
    + unfold row. rewrite map_lookup, lookup_seqZ_lt by lia. simpl.
      rewrite Z2Nat.id by lia. reflexivity.
Qed.

(** X8. [getImageData] of the mock leaves the window, [width] and [height] as
    they are and returns [width * height] bytes; the byte for [(w_idx,
    h_idx)] is at index [w_idx * height + h_idx] (the width index is the slow
    one) and is 255 when both indices are above half the size or neither is,
    0 otherwise. *)
Theorem getImageData_pixels (volumeID camera : Z) (xyzpr : list double)
    (width height : Z) (w : Mock.AutoscoperMockMainWindow) :
  0 <= width -> 0 <= height ->
  let r := Mock.getImageData volumeID camera xyzpr width height w in
  r.2 = w /\ r.1.2 = height /\ r.1.1.2 = width
  /\ length r.1.1.1 = Z.to_nat (width * height)
  /\ (forall w_idx h_idx,
        0 <= w_idx < width -> 0 <= h_idx < height ->
        r.1.1.1 !! Z.to_nat (w_idx * height + h_idx)
        = Some (if Bool.eqb (width / 2 <? w_idx) (height / 2 <? h_idx)
                then xff else x00)).
Proof.
  intros Hw Hh. exact (getImageData_shape volumeID camera xyzpr width height w Hw Hh).
Qed.

Lemma getImageData_pixels_witness :
  let r := Mock.getImageData 0 0 [] 5 3 Mock.AutoscoperMockMainWindow_ctor in
  0 <= 5 /\ 0 <= 3
  /\ length r.1.1.1 = Z.to_nat (5 * 3)
  /\ r.1.1.1 !! Z.to_nat (4 * 3 + 1) = Some x00.
Proof.
  intros r.
  assert (Hw : 0 <= 5) by lia. assert (Hh : 0 <= 3) by lia.
  split; [exact Hw|]. split; [exact Hh|].
  destruct (getImageData_pixels 0 0 [] 5 3 Mock.AutoscoperMockMainWindow_ctor
              Hw Hh) as (_ & _ & _ & Hlen & Hpix).
  split; [exact Hlen|].
  exact (Hpix 4 1 ltac:(lia) ltac:(lia)).
Defined.




(** ** Poses, byte for byte *)

Lemma read_bytes_content (data : list byte) (off n : Z) (bs : list byte) :
  read_bytes data off n = Ok bs ->
  bs = take (Z.to_nat n) (drop (Z.to_nat off) data)
  /\ length bs = Z.to_nat n.
Proof.
  intros Hr. pose proof (read_bytes_Ok _ _ _ _ Hr) as (H0 & Hn & Hfit).
  unfold read_bytes in Hr.
  destruct ((0 <=? off) && (0 <=? n) && (off + n <=? Z.of_nat (length data)));
    [|discriminate].
  injection Hr as <-. split; [reflexivity|].
  rewrite length_take, length_drop. lia.
Qed.

Lemma read_double_bytes (data : list byte) (off : Z) (d : double) :
  read_double data off = Ok d ->
  encode_double d = take 8 (drop (Z.to_nat off) data).
Proof.
  unfold read_double.
  destruct (read_bytes data off 8) as [bs|f] eqn:Hr; [|discriminate].
  intros [= <-]. apply read_bytes_content in Hr as [Hbs Hlen].
  change (Z.to_nat 8) with 8%nat in Hbs, Hlen.
  rewrite <- Hbs. unfold encode_double.
  rewrite <- Hlen. apply le_encode_decode.
Qed.

Lemma read_pose_bytes (data : list byte) (off : Z) (pose : list double) :
  read_pose data off = Ok pose ->
  encode_doubles pose = take 48 (drop (Z.to_nat off) data).
Proof.
  unfold read_pose.
  destruct (read_double data off) as [d0|] eqn:H0; [|discriminate].
  destruct (read_double data (off + 8)) as [d1|] eqn:H1; [|discriminate].
  destruct (read_double data (off + 16)) as [d2|] eqn:H2; [|discriminate].
  destruct (read_double data (off + 24)) as [d3|] eqn:H3; [|discriminate].
  destruct (read_double data (off + 32)) as [d4|] eqn:H4; [|discriminate].
  destruct (read_double data (off + 40)) as [d5|] eqn:H5; [|discriminate].
  intros [= <-].
  pose proof (read_double_Ok _ _ _ H0) as [Hoff _].
  apply read_double_bytes in H0, H1, H2, H3, H4, H5.
  rewrite !encode_doubles_cons.
  change (encode_doubles []) with (@nil byte). rewrite app_nil_r.
  rewrite H0, H1, H2, H3, H4, H5.
  replace (Z.to_nat (off + 8)) with (Z.to_nat off + 8)%nat by lia.
  replace (Z.to_nat (off + 16)) with (Z.to_nat off + 16)%nat by lia.
  replace (Z.to_nat (off + 24)) with (Z.to_nat off + 24)%nat by lia.
  replace (Z.to_nat (off + 32)) with (Z.to_nat off + 32)%nat by lia.
  replace (Z.to_nat (off + 40)) with (Z.to_nat off + 40)%nat by lia.
  rewrite <- !drop_drop.
  set (l := drop (Z.to_nat off) data).
  rewrite !app_assoc.
  assert (Hjoin : forall a b c, c = (a + b)%nat ->
            take a l ++ take b (drop a l) = take c l)
    by (intros a b c ->; apply take_take_drop).
  rewrite (Hjoin 8 8 16)%nat, (Hjoin 16 8 24)%nat, (Hjoin 24 8 32)%nat,
    (Hjoin 32 8 40)%nat, (Hjoin 40 8 48)%nat by reflexivity.
  reflexivity.
Qed.

(** X10. On the mock, whatever 48 bytes an opcode-7 request carries as its
    pose (any bit patterns, whatever the volume and frame bytes and whatever
    follows), a later opcode-6 request for any volume and frame is answered
    with byte 6 followed by exactly these 48 bytes. *)
Theorem pose_bytes_round_trip (w : Mock.AutoscoperMockMainWindow)
    (uninit uninit' : Z * Z)
    (volume_bytes frame_bytes pose_bytes extra payload' : list byte) :
  length volume_bytes = 4%nat ->
  length frame_bytes = 4%nat ->
  length pose_bytes = 48%nat ->
  min_payload 6 <= Z.of_nat (length payload') ->
  let request := x07 :: volume_bytes ++ frame_bytes ++ pose_bytes ++ extra in
  exists h7 h6,
    handleMessage w uninit request (Z.of_nat (length request)) = Ok h7
    /\ written h7 = [x07]
    /\ handleMessage (window h7) uninit' (x06 :: payload')
         (Z.of_nat (length (x06 :: payload'))) = Ok h6
    /\ written h6 = x06 :: pose_bytes.
Proof.
  intros Hv Hf Hp Hmin request. cbv [min_payload] in Hmin.
  assert (Hlen : Z.of_nat (length request) >= 57).
  { subst request. simpl length. rewrite !length_app. lia. }
  destruct (read_pose request 9) as [pose|f] eqn:Hpose;
    [|apply read_pose_Fault in Hpose; lia].
  destruct (read_qint32 request 1) as [volume|f] eqn:Hvol;
    [|apply read_qint32_Fault in Hvol; lia].
  destruct (read_qint32 request 5) as [frame|f] eqn:Hfr;
    [|apply read_qint32_Fault in Hfr; lia].
  pose proof (read_pose_Ok _ _ _ Hpose) as (_ & _ & Hsix).
  assert (Hbytes : encode_doubles pose = pose_bytes).
  { rewrite (read_pose_bytes _ _ _ Hpose). subst request.
    change (x07 :: volume_bytes ++ frame_bytes ++ pose_bytes ++ extra)
      with ([x07] ++ volume_bytes ++ frame_bytes ++ pose_bytes ++ extra).
    rewrite (app_assoc volume_bytes), (app_assoc [x07]).
    rewrite drop_app_length'
      by (rewrite !length_app, Hv, Hf; reflexivity).
    apply take_app_length'. rewrite Hp. reflexivity. }
  assert (Hlen' : Z.of_nat (length (x06 :: payload'))
                  = 1 + Z.of_nat (length payload')) by (simpl length; lia).
  destruct (read_qint32 (x06 :: payload') 1) as [volume'|f] eqn:Hvol';
    [|apply read_qint32_Fault in Hvol'; lia].
  destruct (read_qint32 (x06 :: payload') 5) as [frame'|f] eqn:Hfr';
    [|apply read_qint32_Fault in Hfr'; lia].
  eexists _, _. split.
  - unfold handleMessage. subst request. rewrite read_uchar_head.
    change (Z_of_byte x07) with 7. cbv beta iota.
    rewrite Hpose, Hvol, Hfr. reflexivity.
  - split; [reflexivity|]. split.
    + unfold handleMessage. rewrite read_uchar_head.
      change (Z_of_byte x06) with 6. cbv beta iota.
      rewrite Hvol', Hfr'. simpl getPose. unfold Mock.getPose, Mock.setPose.
      simpl Mock.Pose. unfold vector_doubles.
      rewrite Hsix. simpl Nat.leb. cbv beta iota.
      rewrite firstn_all2 by lia. reflexivity.
    + simpl. rewrite Hbytes. reflexivity.
Qed.

Lemma pose_bytes_round_trip_witness :
  let pose_bytes := replicate 48 xff in
  length [x00; x00; x00; x00] = 4%nat
  /\ length [x01; x00; x00; x00] = 4%nat
  /\ length pose_bytes = 48%nat
  /\ min_payload 6 <= Z.of_nat (length (replicate 8 x09))
  /\ exists h7 h6,
       handleMessage Mock.AutoscoperMockMainWindow_ctor (0, 0)
         (x07 :: [x00; x00; x00; x00] ++ [x01; x00; x00; x00]
              ++ pose_bytes ++ [])
         (Z.of_nat (length (x07 :: [x00; x00; x00; x00] ++ [x01; x00; x00; x00]
                                ++ pose_bytes ++ []))) = Ok h7
       /\ written h7 = [x07]
       /\ handleMessage (window h7) (0, 0) (x06 :: replicate 8 x09)
            (Z.of_nat (length (x06 :: replicate 8 x09))) = Ok h6
       /\ written h6 = x06 :: pose_bytes.
Proof.
  intros pose_bytes.
  assert (Hv : length [x00; x00; x00; x00] = 4%nat) by reflexivity.
  assert (Hf : length [x01; x00; x00; x00] = 4%nat) by reflexivity.
  assert (Hp : length pose_bytes = 48%nat) by reflexivity.
  assert (Hmin : min_payload 6 <= Z.of_nat (length (replicate 8 x09)))
    by (vm_compute; discriminate).
  repeat (split; [assumption|]).
  exact (pose_bytes_round_trip Mock.AutoscoperMockMainWindow_ctor (0, 0) (0, 0)
           [x00; x00; x00; x00] [x01; x00; x00; x00] pose_bytes []
           (replicate 8 x09) Hv Hf Hp Hmin).
Defined.

(** * Further properties of the connections *)

Section Connections.

Context {W : Type} `{CommandSurface W}.

Lemma handleMessage_written_nonempty (mw : W) (uninit : Z * Z)
    (data : list byte) (len : Z) (h : handled W) :
  handleMessage mw uninit data len = Ok h -> written h <> [].
Proof.
  destruct data as [|b payload]; [discriminate|].
  intros Hh.
  destruct (decide (1 <= Z_of_byte b <= 12)) as [Hop|Hop].
  - pose proof (handleMessage_reply_head mw uninit b payload len h Hop Hh)
      as Hhead.
    destruct (written h); [discriminate Hhead | discriminate].
  - rewrite handleMessage_default in Hh
      by (pose proof (Z_of_byte_range b); lia).
    injection Hh as <-. discriminate.
Qed.

(** What one event adds to the write log. *)
Lemma fire_sent (srv srv' : Server W) (ev : event) :
  fire srv ev = Ok srv' ->
  exists replies,
    sent srv' = sent srv ++ replies
    /\ map fst replies = senders [ev]
    /\ Forall (fun entry => entry.2 <> []) replies.
Proof.
  destruct ev as [|c chunk uninit|c]; unfold fire.
  - intros [= <-]. exists []. simpl. rewrite app_nil_r. auto.
  - destruct (objects srv !! c); [|discriminate]. unfold reading.
    destruct (objects (receive c chunk srv) !! c); [|discriminate].
    destruct (handleMessage _ _ _ _) as [h|f] eqn:Hh; [|discriminate].
    intros [= <-]. exists [(c, written h)]. simpl.
    split; [reflexivity|]. split; [reflexivity|].
    constructor; [|constructor]. simpl.
    eapply handleMessage_written_nonempty; eauto.
  - destruct (objects srv !! c); [|discriminate]. unfold deleteConnection.
    intros [= <-]. exists []. simpl. rewrite app_nil_r. auto.
Qed.

Lemma senders_cons (ev : event) (evs : list event) :
  senders (ev :: evs) = senders [ev] ++ senders evs.
Proof. unfold senders. destruct ev; reflexivity. Qed.

Lemma filter_remove_one (l : list nat) (c : nat) :
  NoDup l -> c ∈ l ->
  S (length (filter (λ x, x ≠ c) l)) = length l.
Proof.
  induction 1 as [|x l Hx Hnd IH]; intros Hin; [inversion Hin|].
  rewrite filter_cons. destruct (decide (x ≠ c)) as [Hne|Heq].
  - simpl. f_equal. apply IH.
    apply elem_of_cons in Hin as [->|Hin]; [congruence|exact Hin].
  - apply dec_stable in Heq. subst x. simpl. f_equal.
    clear IH Hin Hnd. induction l as [|y l IH]; [reflexivity|].
    rewrite filter_cons. destruct (decide (y ≠ c)) as [_|Heq].
    + simpl. f_equal. apply IH. intros Hin. apply Hx. right. exact Hin.
    + apply dec_stable in Heq. subst y. exfalso. apply Hx. left.
Qed.

(** One event keeps the live set in step with the objects that exist. *)
Lemma fire_live (srv srv' : Server W) (ev : event) :
  server_inv srv ->
  NoDup (clientConnections (socket srv)) ->
  (forall c, is_Some (objects srv !! c) -> c ∈ clientConnections (socket srv)) ->
  fire srv ev = Ok srv' ->
  NoDup (clientConnections (socket srv'))
  /\ (forall c, is_Some (objects srv' !! c) ->
        c ∈ clientConnections (socket srv'))
  /\ (length (clientConnections (socket srv')) + disconnected [ev]
      = length (clientConnections (socket srv)) + accepted [ev])%nat.
Proof.
  intros Hinv Hnd Hall Hfire.
  pose proof Hinv as (Hfresh & Hlive & Hempty).
  destruct ev as [|c chunk uninit|c].
  - injection Hfire as <-. simpl. repeat split.
    + apply NoDup_app. repeat split; [exact Hnd| |apply NoDup_singleton].
      intros x Hx Hx'. apply list_elem_of_singleton in Hx'. subst x.
      specialize (Hfresh _ (Hlive _ Hx)). lia.
    + intros c Hc. apply elem_of_app.
      destruct (decide (c = next_object srv)) as [->|Hne].
      * right. apply list_elem_of_singleton. reflexivity.
      * left. rewrite lookup_insert_ne in Hc by congruence. auto.
    + rewrite length_app. simpl. lia.
  - destruct (objects srv !! c) as [buffered|] eqn:Hc;
      [|simpl in Hfire; rewrite Hc in Hfire; discriminate].
    pose proof (Hempty c buffered Hc) as ->.
    rewrite (fire_ReadyRead srv c chunk uninit Hc) in Hfire.
    destruct (handleMessage _ _ _ _) as [h|f]; [|discriminate].
    injection Hfire as <-. simpl. repeat split; auto; lia.
  - simpl in Hfire. destruct (objects srv !! c) as [buffered|] eqn:Hc;
      [|discriminate].
    injection Hfire as <-. simpl. repeat split.
    + apply NoDup_filter. exact Hnd.
    + intros c' Hc'. destruct (decide (c' = c)) as [->|Hne].
      * rewrite lookup_delete_eq in Hc'. destruct Hc' as [? [=]].
      * rewrite lookup_delete_ne in Hc' by congruence.
        apply list_elem_of_filter. split; [exact Hne | auto].
    + assert (Hin : c ∈ clientConnections (socket srv))
        by (apply Hall; rewrite Hc; eauto).
      pose proof (filter_remove_one _ c Hnd Hin). lia.
Qed.

Lemma accepted_cons (ev : event) (evs : list event) :
  accepted (ev :: evs) = (accepted [ev] + accepted evs)%nat.
Proof. destruct ev; reflexivity. Qed.

Lemma disconnected_cons (ev : event) (evs : list event) :
  disconnected (ev :: evs) = (disconnected [ev] + disconnected evs)%nat.
Proof. destruct ev; reflexivity. Qed.

Lemma run_live (evs : list event) :
  forall (srv srv' : Server W),
  server_inv srv ->
  NoDup (clientConnections (socket srv)) ->
  (forall c, is_Some (objects srv !! c) -> c ∈ clientConnections (socket srv)) ->
  run srv evs = Ok srv' ->
  NoDup (clientConnections (socket srv'))
  /\ (forall c, c ∈ clientConnections (socket srv')
                <-> is_Some (objects srv' !! c))
  /\ (length (clientConnections (socket srv')) + disconnected evs
      = length (clientConnections (socket srv)) + accepted evs)%nat.
Proof.
  induction evs as [|ev evs IH]; intros srv srv' Hinv Hnd Hall Hrun.
  - injection Hrun as <-. destruct Hinv as (_ & Hlive & _).
    repeat split; auto.
  - simpl in Hrun. destruct (fire srv ev) as [srv1|f] eqn:Hfire; [|discriminate].
    destruct (fire_live srv srv1 ev Hinv Hnd Hall Hfire) as (Hnd1 & Hall1 & Hn1).
    destruct (IH srv1 srv' (fire_inv _ _ _ Hinv Hfire) Hnd1 Hall1 Hrun)
      as (Hnd' & Hiff' & Hn').
    rewrite accepted_cons, disconnected_cons.
    repeat split; try assumption; try apply Hiff'. lia.
Qed.

Lemma run_sent (evs : list event) :
  forall (srv srv' : Server W),
  run srv evs = Ok srv' ->
  exists replies,
    sent srv' = sent srv ++ replies
    /\ map fst replies = senders evs
    /\ Forall (fun entry => entry.2 <> []) replies.
Proof.
  induction evs as [|ev evs IH]; intros srv srv' Hrun.
  - injection Hrun as <-. exists []. rewrite app_nil_r. auto.
  - simpl in Hrun. destruct (fire srv ev) as [srv1|f] eqn:Hfire; [|discriminate].
    destruct (fire_sent srv srv1 ev Hfire) as (r1 & Hs1 & Hm1 & Hf1).
    destruct (IH srv1 srv' Hrun) as (r2 & Hs2 & Hm2 & Hf2).
    exists (r1 ++ r2). rewrite Hs2, Hs1, <- app_assoc.
    split; [reflexivity|]. split.
    + rewrite map_app, Hm1, Hm2, <- senders_cons. reflexivity.
    + apply Forall_app. auto.
Qed.

End Connections.

(** X11. In every state the server reaches, [clientConnections] holds each
    connection that was accepted and has not disconnected exactly once: it
    has no duplicate, its members are the sockets that exist, and its
    length is the number of connections accepted less the number
    disconnected. *)
Theorem live_set_is_open_connections {W : Type} `{CommandSurface W}
    (mw : W) (evs : list event) (srv : Server W) :
  run (Socket_ctor mw) evs = Ok srv ->
  NoDup (clientConnections (socket srv))
  /\ (forall c, c ∈ clientConnections (socket srv)
                <-> is_Some (objects srv !! c))
  /\ (length (clientConnections (socket srv)) + disconnected evs
      = accepted evs)%nat.
Proof.
  intros Hrun.
  apply (run_live evs (Socket_ctor mw) srv (Socket_ctor_inv mw)); simpl.
  - apply NoDup_nil. exact I.
  - intros c [x Hx]. rewrite lookup_empty in Hx. discriminate.
  - exact Hrun.
Qed.

Lemma live_set_is_open_connections_witness :
  let mw := Mock.AutoscoperMockMainWindow_ctor in
  let evs := [NewConnection; NewConnection; Disconnected 0%nat; NewConnection] in
  let srv :=
    {| socket := {| clientConnections := [1%nat; 2%nat]; m_mainwindow := mw |};
       objects := <[2%nat := []]> (<[1%nat := []]> ∅);
       next_object := 3%nat;
       sent := [] |} in
  run (Socket_ctor mw) evs = Ok srv
  /\ NoDup (clientConnections (socket srv))
  /\ (length (clientConnections (socket srv)) + disconnected evs
      = accepted evs)%nat.
Proof.
  intros mw evs srv.
  assert (Hrun : run (Socket_ctor mw) evs = Ok srv) by (vm_compute; reflexivity).
  split; [exact Hrun|].
  destruct (live_set_is_open_connections mw evs srv Hrun) as (Hnd & _ & Hn).
  split; [exact Hnd | exact Hn].
Defined.

(** X12. Every [readyRead] that is handled writes exactly one reply, of at
    least one byte, to the connection that sent the signal; accepting and
    disconnecting write nothing.  So the write log of a run lists the
    senders of its [readyRead] events, in order. *)
Theorem one_reply_per_message {W : Type} `{CommandSurface W}
    (srv srv' : Server W) (evs : list event) :
  run srv evs = Ok srv' ->
  exists replies,
    sent srv' = sent srv ++ replies
    /\ map fst replies = senders evs
    /\ Forall (fun entry => entry.2 <> []) replies.
Proof.
  intros Hrun. exact (run_sent evs srv srv' Hrun).
Qed.

Lemma one_reply_per_message_witness :
  let mw := Mock.AutoscoperMockMainWindow_ctor in
  let evs := [NewConnection; NewConnection; ReadyRead 1%nat [x0c] (0, 0);
              ReadyRead 0%nat [xee] (0, 0); Disconnected 1%nat] in
  let srv' :=
    {| socket := {| clientConnections := [0%nat]; m_mainwindow := mw |};
       objects := <[0%nat := []]> ∅;
       next_object := 2%nat;
       sent := [(1%nat, [x0c]); (0%nat, [x00])] |} in
  run (Socket_ctor mw) evs = Ok srv'
  /\ exists replies,
       sent srv' = sent (Socket_ctor mw) ++ replies
       /\ map fst replies = [1%nat; 0%nat].
Proof.
  intros mw evs srv'.
  assert (Hrun : run (Socket_ctor mw) evs = Ok srv') by (vm_compute; reflexivity).
  split; [exact Hrun|].
  destruct (one_reply_per_message (Socket_ctor mw) srv' evs Hrun)
    as (replies & Hs & Hm & _).
  exists replies. split; [exact Hs | exact Hm].
Defined.

(** ** The pose across connections *)

Lemma handleMessage_set_pose_request (w : Mock.AutoscoperMockMainWindow)
    (uninit : Z * Z) (pose : list double) (volume frame len : Z) :
  length pose = 6%nat -> Forall is_double pose ->
  handleMessage w uninit (set_pose_request pose volume frame) len
  = Ok {| window := {| Mock.Frame := Mock.Frame w; Mock.Pose := pose |};
          calls := [CallSetPose pose (volume mod 2 ^ 32) (frame mod 2 ^ 32)];
          written := [x07] |}.
Proof.
  intros Hlen Hall.
  destruct (set_pose_request_fields pose volume frame Hlen Hall)
    as (H7 & H7v & H7f & H7p).
  unfold handleMessage. rewrite H7. cbv beta iota.
  rewrite H7p, H7v, H7f, !unsigned_of_signed32_mod. reflexivity.
Qed.

Lemma handleMessage_get_pose_mock (w : Mock.AutoscoperMockMainWindow)
    (uninit : Z * Z) (payload : list byte) (len : Z) :
  length (Mock.Pose w) = 6%nat ->
  min_payload 6 <= Z.of_nat (length payload) ->
  exists h,
    handleMessage w uninit (x06 :: payload) len = Ok h
    /\ window h = w
    /\ written h = [x06] ++ encode_doubles (Mock.Pose w).
Proof.
  intros Hsix Hmin. cbv [min_payload] in Hmin.
  assert (Hlen : Z.of_nat (length (x06 :: payload))
                 = 1 + Z.of_nat (length payload)) by (simpl length; lia).
  destruct (read_qint32 (x06 :: payload) 1) as [volume|f] eqn:Hv;
    [|apply read_qint32_Fault in Hv; lia].
  destruct (read_qint32 (x06 :: payload) 5) as [frame|f] eqn:Hf;
    [|apply read_qint32_Fault in Hf; lia].
  eexists. split.
  - unfold handleMessage. rewrite read_uchar_head.
    change (Z_of_byte x06) with 6. cbv beta iota.
    rewrite Hv, Hf. simpl getPose. unfold Mock.getPose, vector_doubles.
    rewrite Hsix. simpl Nat.leb. cbv beta iota.
    rewrite firstn_all2 by lia. reflexivity.
  - split; reflexivity.
Qed.

Lemma run_mock_pose_length (evs : list event) :
  forall (srv srv' : Server Mock.AutoscoperMockMainWindow),
  length (Mock.Pose (m_mainwindow (socket srv))) = 6%nat ->
  run srv evs = Ok srv' ->
  length (Mock.Pose (m_mainwindow (socket srv'))) = 6%nat.
Proof.
  induction evs as [|ev evs IH]; intros srv srv' Hsix Hrun.
  - injection Hrun as <-. exact Hsix.
  - simpl in Hrun. destruct (fire srv ev) as [srv1|f] eqn:Hfire; [|discriminate].
    apply (IH srv1 srv'); [|exact Hrun].
    destruct ev as [|c chunk uninit|c]; unfold fire in Hfire.
    + injection Hfire as <-. exact Hsix.
    + destruct (objects srv !! c); [|discriminate]. unfold reading in Hfire.
      destruct (objects (receive c chunk srv) !! c); [|discriminate].
      destruct (handleMessage _ _ _ _) as [h|f] eqn:Hh; [|discriminate].
      injection Hfire as <-. simpl.
      destruct (handleMessage_mock_pose _ _ _ _ _ Hh) as [Hsame|(_ & _ & _ & H6)].
      * rewrite Hsame. exact Hsix.
      * exact H6.
    + destruct (objects srv !! c); [|discriminate].
      injection Hfire as <-. exact Hsix.
Qed.

(** X13. The pose is shared by all connections: after a set-pose request of
    one connection is acknowledged, a get-pose request of any connection,
    for any volume and frame, is answered with byte 6 and the encoding of
    that pose. *)
Theorem pose_shared_between_connections
    (srv : Server Mock.AutoscoperMockMainWindow) (a b : nat)
    (pose : list double) (volume frame : Z) (payload' : list byte)
    (uninit uninit' : Z * Z) :
  length pose = 6%nat -> Forall is_double pose ->
  objects srv !! a = Some [] -> objects srv !! b = Some [] ->
  min_payload 6 <= Z.of_nat (length payload') ->
  exists srv',
    run srv [ReadyRead a (set_pose_request pose volume frame) uninit;
             ReadyRead b (x06 :: payload') uninit'] = Ok srv'
    /\ sent srv'
       = sent srv ++ [(a, [x07]); (b, [x06] ++ encode_doubles pose)].
Proof.
  intros Hlen Hall Ha Hb Hmin.
  cbn [run].
  rewrite (fire_ReadyRead srv a _ uninit Ha).
  rewrite (handleMessage_set_pose_request _ _ _ _ _ _ Hlen Hall).
  cbn [window written].
  match goal with
  | |- context [fire ?s (ReadyRead b _ _)] => set (srv1 := s)
  end.
  assert (Hb1 : objects srv1 !! b = Some []) by exact Hb.
  rewrite (fire_ReadyRead srv1 b _ uninit' Hb1).
  destruct (handleMessage_get_pose_mock (m_mainwindow (socket srv1)) uninit'
              payload' (Z.of_nat (length (x06 :: payload'))) Hlen Hmin)
    as (h & Hh & Hwin & Hw).
  rewrite Hh. eexists. split; [reflexivity|].
  cbn [sent]. rewrite Hw. subst srv1. cbn [sent socket m_mainwindow Mock.Pose].
  rewrite <- app_assoc. reflexivity.
Qed.

Lemma pose_shared_between_connections_witness :
  let mw := Mock.AutoscoperMockMainWindow_ctor in
  let srv := createNewConnection (createNewConnection (Socket_ctor mw)) in
  let pose := [0; 1; 2; 3; 4; 5] in
  length pose = 6%nat /\ Forall is_double pose
  /\ objects srv !! 0%nat = Some [] /\ objects srv !! 1%nat = Some []
  /\ min_payload 6 <= Z.of_nat (length (replicate 8 x00))
  /\ exists srv',
       run srv [ReadyRead 0%nat (set_pose_request pose 0 0) (0, 0);
                ReadyRead 1%nat (x06 :: replicate 8 x00) (0, 0)] = Ok srv'
       /\ sent srv'
          = sent srv ++ [(0%nat, [x07]); (1%nat, [x06] ++ encode_doubles pose)].
Proof.
  intros mw srv pose.
  assert (Hlen : length pose = 6%nat) by reflexivity.
  assert (Hall : Forall is_double pose).
  { repeat constructor; vm_compute; discriminate. }
  assert (Ha : objects srv !! 0%nat = Some []) by reflexivity.
  assert (Hb : objects srv !! 1%nat = Some []) by reflexivity.
  assert (Hmin : min_payload 6 <= Z.of_nat (length (replicate 8 x00)))
    by (vm_compute; discriminate).
  repeat (split; [assumption|]).
  exact (pose_shared_between_connections srv 0%nat 1%nat pose 0 0
           (replicate 8 x00) (0, 0) (0, 0) Hlen Hall Ha Hb Hmin).
Defined.

(** X14. The pose outlives the connection that set it: after a set-pose
    request, the disconnection of its sender and a new connection, a
    get-pose request on the new connection is answered with that pose. *)
Theorem pose_survives_disconnect
    (srv : Server Mock.AutoscoperMockMainWindow) (a : nat)
    (pose : list double) (volume frame : Z) (payload' : list byte)
    (uninit uninit' : Z * Z) :
  length pose = 6%nat -> Forall is_double pose ->
  objects srv !! a = Some [] ->
  min_payload 6 <= Z.of_nat (length payload') ->
  exists srv',
    run srv [ReadyRead a (set_pose_request pose volume frame) uninit;
             Disconnected a;
             NewConnection;
             ReadyRead (next_object srv) (x06 :: payload') uninit'] = Ok srv'
    /\ sent srv'
       = sent srv ++ [(a, [x07]);
                      (next_object srv, [x06] ++ encode_doubles pose)].
Proof.
  intros Hlen Hall Ha Hmin.
  cbn [run].
  rewrite (fire_ReadyRead srv a _ uninit Ha).
  rewrite (handleMessage_set_pose_request _ _ _ _ _ _ Hlen Hall).
  cbv beta iota. cbn [window written].
  match goal with
  | |- context [fire ?s (Disconnected a)] => set (srv1 := s)
  end.
  assert (Hd : fire srv1 (Disconnected a)
               = deleteConnection (Some a) srv1)
    by (unfold fire; replace (objects srv1 !! a) with (Some (@nil byte));
        reflexivity).
  rewrite Hd. unfold deleteConnection. cbv beta iota.
  match goal with
  | |- context [fire ?s NewConnection] => set (srv2 := s)
  end.
  change (fire srv2 NewConnection) with (Ok (createNewConnection srv2)).
  cbv beta iota.
  set (srv3 := createNewConnection srv2).
  assert (Hnew : objects srv3 !! next_object srv = Some [])
    by apply lookup_insert_eq.
  rewrite (fire_ReadyRead srv3 (next_object srv) _ uninit' Hnew).
  destruct (handleMessage_get_pose_mock (m_mainwindow (socket srv3)) uninit'
              payload' (Z.of_nat (length (x06 :: payload'))) Hlen Hmin)
    as (h & Hh & Hwin & Hw).
  rewrite Hh. eexists. split; [reflexivity|].
  cbn [sent]. rewrite Hw. subst srv3 srv2 srv1.
  unfold createNewConnection. cbn [sent socket m_mainwindow Mock.Pose].
  rewrite <- app_assoc. reflexivity.
Qed.

Lemma pose_survives_disconnect_witness :
  let mw := Mock.AutoscoperMockMainWindow_ctor in
  let srv := createNewConnection (Socket_ctor mw) in
  let pose := [5; 4; 3; 2; 1; 0] in
  length pose = 6%nat /\ Forall is_double pose
  /\ objects srv !! 0%nat = Some []
  /\ min_payload 6 <= Z.of_nat (length (replicate 8 x00))
  /\ exists srv',
       run srv [ReadyRead 0%nat (set_pose_request pose 0 0) (0, 0);
                Disconnected 0%nat;
                NewConnection;
                ReadyRead (next_object srv) (x06 :: replicate 8 x00) (0, 0)]
         = Ok srv'
       /\ sent srv'
          = sent srv ++ [(0%nat, [x07]);
                         (next_object srv, [x06] ++ encode_doubles pose)].
Proof.
  intros mw srv pose.
  assert (Hlen : length pose = 6%nat) by reflexivity.
  assert (Hall : Forall is_double pose).
  { repeat constructor; vm_compute; discriminate. }
  assert (Ha : objects srv !! 0%nat = Some []) by reflexivity.
  assert (Hmin : min_payload 6 <= Z.of_nat (length (replicate 8 x00)))
    by (vm_compute; discriminate).
  repeat (split; [assumption|]).
  exact (pose_survives_disconnect srv 0%nat pose 0 0 (replicate 8 x00)
           (0, 0) (0, 0) Hlen Hall Ha Hmin).
Defined.

(** X15. On the mock the stored pose always holds six doubles, in every
    state the server reaches; so a get-pose request with at least eight
    payload bytes on an open connection never reads past the vector and is
    always answered with 49 bytes, byte 6 and the stored pose. *)
Theorem mock_pose_always_six (evs : list event)
    (srv : Server Mock.AutoscoperMockMainWindow) (c : nat)
    (payload : list byte) (uninit : Z * Z) :
  run (Socket_ctor Mock.AutoscoperMockMainWindow_ctor) evs = Ok srv ->
  is_Some (objects srv !! c) ->
  min_payload 6 <= Z.of_nat (length payload) ->
  length (Mock.Pose (m_mainwindow (socket srv))) = 6%nat
  /\ exists srv',
       fire srv (ReadyRead c (x06 :: payload) uninit) = Ok srv'
       /\ m_mainwindow (socket srv') = m_mainwindow (socket srv)
       /\ sent srv'
          = sent srv
            ++ [(c, [x06] ++ encode_doubles
                               (Mock.Pose (m_mainwindow (socket srv))))]
       /\ length ([x06] ++ encode_doubles
                             (Mock.Pose (m_mainwindow (socket srv))))
          = 49%nat.
Proof.
  intros Hrun [buffered Hc] Hmin.
  pose proof (run_inv _ _ _ (Socket_ctor_inv _) Hrun) as (_ & _ & Hempty).
  pose proof (Hempty c buffered Hc) as ->.
  assert (Hsix : length (Mock.Pose (m_mainwindow (socket srv))) = 6%nat)
    by (apply (run_mock_pose_length evs
                 (Socket_ctor Mock.AutoscoperMockMainWindow_ctor) srv);
        [reflexivity | exact Hrun]).
  split; [exact Hsix|].
  rewrite (fire_ReadyRead srv c _ uninit Hc).
  destruct (handleMessage_get_pose_mock (m_mainwindow (socket srv)) uninit
              payload (Z.of_nat (length (x06 :: payload))) Hsix Hmin)
    as (h & Hh & Hwin & Hw).
  rewrite Hh. eexists. split; [reflexivity|]. cbn [socket m_mainwindow sent].
  split; [exact Hwin|]. split; [rewrite Hw; reflexivity|].
  rewrite length_app, encode_doubles_length, Hsix. reflexivity.
Qed.

Lemma mock_pose_always_six_witness :
  let evs := [NewConnection;
              ReadyRead 0%nat (set_pose_request [9; 8; 7; 6; 5; 4] 1 2) (0, 0)] in
  let srv :=
    {| socket :=
         {| clientConnections := [0%nat];
            m_mainwindow := {| Mock.Frame := -1;
                               Mock.Pose := [9; 8; 7; 6; 5; 4] |} |};
       objects := <[0%nat := []]> ∅;
       next_object := 1%nat;
       sent := [(0%nat, [x07])] |} in
  run (Socket_ctor Mock.AutoscoperMockMainWindow_ctor) evs = Ok srv
  /\ is_Some (objects srv !! 0%nat)
  /\ min_payload 6 <= Z.of_nat (length (replicate 8 x00))
  /\ length (Mock.Pose (m_mainwindow (socket srv))) = 6%nat.
Proof.
  intros evs srv.
  assert (Hrun : run (Socket_ctor Mock.AutoscoperMockMainWindow_ctor) evs
                 = Ok srv) by (vm_compute; reflexivity).
  assert (Hc : is_Some (objects srv !! 0%nat)) by (exists []; reflexivity).
  assert (Hmin : min_payload 6 <= Z.of_nat (length (replicate 8 x00)))
    by (vm_compute; discriminate).
  repeat (split; [assumption|]).
  exact (proj1 (mock_pose_always_six evs srv 0%nat (replicate 8 x00) (0, 0)
                  Hrun Hc Hmin)).
Defined.

(** ** What changes the mock *)

(** X16. Through the dispatcher the state of the mock changes in two ways
    only: a message either leaves it as it was, or is a set-frame that
    replaces the frame, or is a set-pose that replaces the pose by six
    doubles. *)
Theorem mock_state_changes (w : Mock.AutoscoperMockMainWindow)
    (uninit : Z * Z) (data : list byte) (len : Z)
    (h : handled Mock.AutoscoperMockMainWindow) :
  handleMessage w uninit data len = Ok h ->
  window h = w
  \/ (exists frame,
        calls h = [CallSetFrame frame]
        /\ window h = {| Mock.Frame := frame; Mock.Pose := Mock.Pose w |})
  \/ (exists pose volume frame,
        calls h = [CallSetPose pose volume frame]
        /\ length pose = 6%nat
        /\ window h = {| Mock.Frame := Mock.Frame w; Mock.Pose := pose |}).
Proof.
  unfold handleMessage.
  destruct (read_uchar data 0) as [message_type|f]; [|discriminate].
  destruct uninit as [width height].
  destruct message_type as [|p|p];
    [| destruct p as [[[[p|p|]|[p|p|]|]|[[p|p|]|[p|p|]|]|]
                     |[[[p|p|]|[p|p|]|]|[[p|p|]|[p|p|]|]|]|] |];
    cbn [getPose getNCC getImageData setPose setFrame mock_surface
         Mock.getPose Mock.getNCC Mock.getImageData];
    destruct_reads; try discriminate; intros [= <-];
    try (left; reflexivity).
  - right. right. eexists _, _, _. split; [reflexivity|].
    split; [tauto | reflexivity].
  - right. left. eexists. split; reflexivity.
Qed.

Lemma mock_state_changes_witness :
  let w := Mock.AutoscoperMockMainWindow_ctor in
  let h := {| window := {| Mock.Frame := 7; Mock.Pose := Mock.Pose w |};
              calls := [CallSetFrame 7];
              written := [x05] |} in
  handleMessage w (0, 0) [x05; x07; x00; x00; x00] 5 = Ok h
  /\ (window h = w
      \/ (exists frame,
            calls h = [CallSetFrame frame]
            /\ window h = {| Mock.Frame := frame; Mock.Pose := Mock.Pose w |})
      \/ (exists pose volume frame,
            calls h = [CallSetPose pose volume frame]
            /\ length pose = 6%nat
            /\ window h = {| Mock.Frame := Mock.Frame w; Mock.Pose := pose |})).
Proof.
  intros w h.
  assert (Hh : handleMessage w (0, 0) [x05; x07; x00; x00; x00] 5 = Ok h)
    by (vm_compute; reflexivity).
  split; [exact Hh|].
  exact (mock_state_changes w (0, 0) [x05; x07; x00; x00; x00] 5 h Hh).
Defined.

(** ** Arguments of the pose-bearing requests *)

Lemma pose_request_fields (op : byte) (volume : Z) (pose : list double)
    (extra : list byte) :
  length pose = 6%nat -> Forall is_double pose ->
  let data := [op] ++ encode_qint32 volume ++ encode_doubles pose ++ extra in
  read_qint32 data 1 = Ok (to_signed32 (volume mod 2 ^ 32))
  /\ read_pose data 5 = Ok pose.
Proof.
  intros Hlen Hall data. subst data. split.
  - apply read_qint32_encoded. reflexivity.
  - rewrite (app_assoc [op]). apply read_pose_encoded; [|exact Hlen|exact Hall].
    rewrite length_app, encode_qint32_length. reflexivity.
Qed.

(** X17. What a client packs reaches the Command Surface unchanged: the
    threshold of an opcode-9 request arrives at [setBackground] bit for bit,
    and the volume and the six doubles of an opcode-8 request arrive at
    [getNCC]; bytes after the fields are ignored. *)
Theorem background_and_correlation_arguments {W : Type} `{CommandSurface W}
    (mw : W) (uninit : Z * Z) (threshold : double) (volume : Z)
    (pose : list double) (extra : list byte) :
  is_double threshold ->
  0 <= volume < 2 ^ 32 ->
  length pose = 6%nat -> Forall is_double pose ->
  handleMessage mw uninit ([x09] ++ encode_double threshold ++ extra)
    (Z.of_nat (length ([x09] ++ encode_double threshold ++ extra)))
  = Ok {| window := setBackground threshold mw;
          calls := [CallSetBackground threshold];
          written := [x09] |}
  /\ exists h,
       handleMessage mw uninit
         ([x08] ++ encode_qint32 volume ++ encode_doubles pose ++ extra)
         (Z.of_nat (length ([x08] ++ encode_qint32 volume
                                  ++ encode_doubles pose ++ extra))) = Ok h
       /\ calls h = [CallGetNCC volume pose]
       /\ window h = (getNCC volume pose mw).2
       /\ written h
          = [x08; byte_of_Z (Z.of_nat (length (getNCC volume pose mw).1))]
            ++ encode_doubles (getNCC volume pose mw).1.
Proof.
  intros Ht Hv Hlen Hall. split.
  - unfold handleMessage.
    change ([x09] ++ encode_double threshold ++ extra)
      with (x09 :: (encode_double threshold ++ extra)) at 1.
    rewrite read_uchar_head. change (Z_of_byte x09) with 9. cbv beta iota.
    rewrite (read_double_encoded [x09] extra threshold 1) by auto.
    reflexivity.
  - destruct (pose_request_fields x08 volume pose extra Hlen Hall) as [Hrv Hrp].
    unfold handleMessage.
    change ([x08] ++ encode_qint32 volume ++ encode_doubles pose ++ extra)
      with (x08 :: (encode_qint32 volume ++ encode_doubles pose ++ extra)) at 1.
    rewrite read_uchar_head. change (Z_of_byte x08) with 8. cbv beta iota.
    rewrite Hrp, Hrv, unsigned_of_signed32_mod, (Z.mod_small volume) by exact Hv.
    destruct (getNCC volume pose mw) as [ncc mw'].
    eexists. split; [reflexivity|]. repeat split.
Qed.

Lemma background_and_correlation_arguments_witness :
  let threshold := binary64_of_Q 1 4 in
  let pose := [0; 0; 0; 0; 0; binary64_of_Q 3 1] in
  is_double threshold /\ (0 <= 3 < 2 ^ 32)
  /\ length pose = 6%nat /\ Forall is_double pose
  /\ handleMessage Mock.AutoscoperMockMainWindow_ctor (0, 0)
       ([x09] ++ encode_double threshold ++ [x01])
       (Z.of_nat (length ([x09] ++ encode_double threshold ++ [x01])))
     = Ok {| window := setBackground threshold
                         Mock.AutoscoperMockMainWindow_ctor;
             calls := [CallSetBackground threshold];
             written := [x09] |}.
Proof.
  intros threshold pose.
  assert (Ht : is_double threshold)
    by (vm_compute; split; [discriminate | reflexivity]).
  assert (Hv : 0 <= 3 < 2 ^ 32) by lia.
  assert (Hlen : length pose = 6%nat) by reflexivity.
  assert (Hall : Forall is_double pose).
  { repeat constructor; vm_compute; discriminate. }
  repeat (split; [assumption|]).
  exact (proj1 (background_and_correlation_arguments
                  Mock.AutoscoperMockMainWindow_ctor (0, 0) threshold 3 pose
                  [x01] Ht Hv Hlen Hall)).
Defined.

(** X18. The mock's correlation does not look at its arguments: every
    opcode-8 request with at least 52 payload bytes gets the same ten
    bytes, byte 8, the count 1 and the double 0.5, and leaves the mock
    unchanged. *)
Theorem mock_correlation_reply (w : Mock.AutoscoperMockMainWindow)
    (uninit : Z * Z) (payload : list byte) :
  min_payload 8 <= Z.of_nat (length payload) ->
  exists h,
    handleMessage w uninit (x08 :: payload)
      (Z.of_nat (length (x08 :: payload))) = Ok h
    /\ window h = w
    /\ written h = [x08; x01; x00; x00; x00; x00; x00; x00; xe0; x3f].
Proof.
  intros Hmin. cbv [min_payload] in Hmin.
  assert (Hlen : Z.of_nat (length (x08 :: payload))
                 = 1 + Z.of_nat (length payload)) by (simpl length; lia).
  destruct (read_pose (x08 :: payload) 5) as [pose|f] eqn:Hp;
    [|apply read_pose_Fault in Hp; lia].
  destruct (read_qint32 (x08 :: payload) 1) as [volume|f] eqn:Hv;
    [|apply read_qint32_Fault in Hv; lia].
  eexists. split.
  - unfold handleMessage. rewrite read_uchar_head.
    change (Z_of_byte x08) with 8. cbv beta iota.
    rewrite Hp, Hv. reflexivity.
  - split; reflexivity.
Qed.

Lemma mock_correlation_reply_witness :
  min_payload 8 <= Z.of_nat (length (replicate 52 x11))
  /\ exists h,
       handleMessage Mock.AutoscoperMockMainWindow_ctor (0, 0)
         (x08 :: replicate 52 x11)
         (Z.of_nat (length (x08 :: replicate 52 x11))) = Ok h
       /\ window h = Mock.AutoscoperMockMainWindow_ctor
       /\ written h = [x08; x01; x00; x00; x00; x00; x00; x00; xe0; x3f].
Proof.
  assert (Hmin : min_payload 8 <= Z.of_nat (length (replicate 52 x11)))
    by (vm_compute; discriminate).
  split; [exact Hmin|].
  exact (mock_correlation_reply Mock.AutoscoperMockMainWindow_ctor (0, 0)
           (replicate 52 x11) Hmin).
Defined.

(** X19. For any Command Surface, an opcode-10 request hands [getImageData]
    the volume, the camera and the six doubles the client packed, together
    with whatever the locals [width] and [height] hold; the reply is byte
    10, then the width and the height as [getImageData] leaves them in its
    reference parameters, four bytes each, then the bytes it returns. *)
Theorem image_request_arguments {W : Type} `{CommandSurface W}
    (mw : W) (uninit : Z * Z) (volume camera : Z) (pose : list double)
    (extra : list byte) :
  0 <= volume < 2 ^ 32 -> 0 <= camera < 2 ^ 32 ->
  length pose = 6%nat -> Forall is_double pose ->
  let r := getImageData volume camera pose uninit.1 uninit.2 mw in
  handleMessage mw uninit (get_image_request volume camera pose ++ extra)
    (Z.of_nat (length (get_image_request volume camera pose ++ extra)))
  = Ok {| window := r.2;
          calls := [CallGetImageData volume camera pose uninit.1 uninit.2];
          written := [x0a] ++ encode_qint32 r.1.1.2 ++ encode_qint32 r.1.2
                           ++ r.1.1.1 |}.
Proof.
  intros Hv Hc Hlen Hall r. subst r.
  set (data := get_image_request volume camera pose ++ extra).
  assert (H0 : read_uchar data 0 = Ok 10) by apply read_uchar_head.
  assert (H1 : read_qint32 data 1 = Ok (to_signed32 (volume mod 2 ^ 32))).
  { subst data. unfold get_image_request. rewrite <- !app_assoc.
    apply read_qint32_encoded. reflexivity. }
  assert (H5 : read_qint32 data 5 = Ok (to_signed32 (camera mod 2 ^ 32))).
  { subst data. unfold get_image_request. rewrite <- !app_assoc.
    regroup. apply read_qint32_encoded. field_offset. }
  assert (H9 : read_pose data 9 = Ok pose).
  { subst data. unfold get_image_request. rewrite <- !app_assoc.
    do 2 regroup. apply read_pose_encoded; [field_offset | exact Hlen | exact Hall]. }
  unfold handleMessage. rewrite H0. cbv beta iota.
  rewrite H1, H5, H9, !unsigned_of_signed32_mod.
  rewrite (Z.mod_small volume), (Z.mod_small camera) by assumption.
  destruct uninit as [width height]. cbn [fst snd].
  destruct (getImageData volume camera pose width height mw)
    as [[[img_Data width'] height'] mw'].
  cbn [fst snd]. unfold QByteArray1. change (byte_of_Z 10) with x0a.
  rewrite <- !app_assoc. reflexivity.
Qed.

Lemma image_request_arguments_witness :
  let pose := [0; 0; 0; 0; 0; 0] in
  (0 <= 1 < 2 ^ 32) /\ (0 <= 2 < 2 ^ 32)
  /\ length pose = 6%nat /\ Forall is_double pose
  /\ handleMessage Mock.AutoscoperMockMainWindow_ctor (2, 2)
       (get_image_request 1 2 pose ++ [])
       (Z.of_nat (length (get_image_request 1 2 pose ++ [])))
     = Ok {| window := Mock.AutoscoperMockMainWindow_ctor;
             calls := [CallGetImageData 1 2 pose 2 2];
             written := [x0a; x02; x00; x00; x00; x02; x00; x00; x00;
                         xff; xff; xff; xff] |}.
Proof.
  intros pose.
  assert (Hv : 0 <= 1 < 2 ^ 32) by lia.
  assert (Hc : 0 <= 2 < 2 ^ 32) by lia.
  assert (Hlen : length pose = 6%nat) by reflexivity.
  assert (Hall : Forall is_double pose).
  { repeat constructor; vm_compute; discriminate. }
  repeat (split; [assumption|]).
  exact (image_request_arguments Mock.AutoscoperMockMainWindow_ctor (2, 2)
           1 2 pose [] Hv Hc Hlen Hall).
Defined.
